(** * EverCart: the cart and order slice of the Express / Mongoose server

    A shallow embedding of the cart routes ([POST /api/cart/add], [update],
    [remove], [clear]), the checkout route ([POST /api/orders]), the admin
    gate ([checkAdmin]) and the admin order-status route
    ([PUT /api/admin/orders/:id]) of the server file, with the Mongoose
    schemas they rely on.

    Conventions of the embedding:
    - a JavaScript number is an IEEE-754 binary64 value, Rocq's primitive
      [float], with the operators of [PrimFloat];
    - a request field that may be absent is an [option]; a string field is
      falsy when it is absent or empty, a number when it is absent, a zero
      or NaN;
    - a Mongo collection is a finite map from the key the routes query it
      by: carts by [userEmail], users by [email], products and orders by
      [_id];
    - a route is a computation over the database that either returns a
      value, leaves early with a response ([return res.status(..).json(..)])
      or throws; [try_catch] is the route's [try { .. } catch] block;
    - every [await] on the store may reject: the list [faults] says, call by
      call, which awaited store operations fail (an empty list is a healthy
      store). Writes that happened before a rejection stay (no transaction).
    Bookkeeping fields that Mongoose adds on its own ([__v], [createdAt],
    [updatedAt], the [_id] of sub-documents) are not part of the model. *)

From Stdlib Require Import ZArith Floats.
From Stdlib Require Uint63.
From stdpp Require Import gmap strings list fin_maps sorting.

(** ** JavaScript values *)

Definition ObjectId := positive.
Bind Scope positive_scope with ObjectId.

(** [a.equals(b)] on two object ids. *)
Definition ObjectId_equals (a b : ObjectId) : bool := bool_decide (a = b).

(** Truthiness of a string field: [undefined] and the empty string are falsy. *)
Definition truthy_string (s : option string) : option string :=
  match s with
  | Some EmptyString => None
  | Some s => Some s
  | None => None
  end.

(** Truthiness of a number: [0], [-0] and [NaN] are falsy. *)
Definition truthy_number (x : float) : bool :=
  negb (PrimFloat.eqb x 0 || PrimFloat.is_nan x).

(** [x || d] on an optional number. *)
Definition or_default (x : option float) (d : float) : float :=
  match x with
  | Some v => if truthy_number v then v else d
  | None => d
  end.

(** [Math.round]: the integer nearest to [x], a tie going towards +infinity;
    NaN, the infinities, the zeros and integral values are returned as they
    are, and a result of zero keeps the sign of [x]. The value of a finite
    float is [(-1)^s * m * 2^e], so for [e < 0] the rounded value is
    [floor ((2 v + d) / (2 d))] with [v = +-m] and [d = 2^(-e)]; its
    magnitude is at most [2^53], so the conversion back is exact. *)
Definition Math_round (x : float) : float :=
  match Prim2SF x with
  | S754_finite s m e =>
      if (0 <=? e)%Z then x
      else
        let d := (2 ^ (- e))%Z in
        let v := if s then Z.neg m else Z.pos m in
        let n := ((2 * v + d) / (2 * d))%Z in
        if (n =? 0)%Z then (if s then (-0)%float else 0%float)
        else if (n <? 0)%Z then (- of_uint63 (Uint63.of_Z (- n)))%float
        else of_uint63 (Uint63.of_Z n)
  | _ => x
  end.

(** [Math.round(x * 100) / 100]. *)
Definition round2 (x : float) : float := (Math_round (x * 100) / 100)%float.

(** [s.toLowerCase()] on the ASCII range. *)
Definition ascii_toLowerCase (c : Ascii.ascii) : Ascii.ascii :=
  let n := Ascii.N_of_ascii c in
  if ((65 <=? n) && (n <=? 90))%N then Ascii.ascii_of_N (n + 32) else c.

Fixpoint toLowerCase (s : string) : string :=
  match s with
  | EmptyString => EmptyString
  | String c r => String (ascii_toLowerCase c) (toLowerCase r)
  end.

(** [array.findIndex(pred)]; [None] stands for [-1]. *)
Fixpoint findIndex {A} (pred : A → bool) (l : list A) : option nat :=
  match l with
  | [] => None
  | x :: r => if pred x then Some 0 else S <$> findIndex pred r
  end.

(** [array.includes(x)] on strings. *)
Definition includes (l : list string) (x : string) : bool :=
  bool_decide (x ∈ l).

(** ** Documents (the Mongoose schemas) *)

Module Product.
Record t := mk {
  name : string;
  category : string;
  price : float;
  brand : string;
  rating : float;
  availability : bool;
  description : string;
  image : string
}.
End Product.

Module User.
Record t := mk {
  name : string;
  email : string;
  password : string;
  role : string
}.
End User.

Module CartItem.
Record t := mk {
  productId : ObjectId;
  quantity : float
}.
End CartItem.

Module Cart.
Record t := mk {
  userEmail : string;
  items : list CartItem.t
}.
End Cart.

(** A product document with its [_id]. *)
Definition ProductDoc : Type := ObjectId * Product.t.

(** A cart item after [populate('items.productId')]: the reference is
    replaced by the product document, or by [null] when no product has
    that id. *)
Module PopulatedItem.
Record t := mk {
  productId : option ProductDoc;
  quantity : float
}.
End PopulatedItem.

Module OrderItem.
Record t := mk {
  productId : ObjectId;
  productName : string;
  productImage : string;
  quantity : float;
  price : float
}.
End OrderItem.

(** [deliveryAddress] as a request sends it: any sub-field may be absent. *)
Module AddressInput.
Record t := mk {
  fullName : option string;
  address : option string;
  city : option string;
  state : option string;
  zipCode : option string;
  phone : option string
}.
End AddressInput.

Module Address.
Record t := mk {
  fullName : string;
  address : string;
  city : string;
  state : string;
  zipCode : string;
  phone : string
}.
End Address.

Module Order.
Record t := mk {
  userEmail : string;
  items : list OrderItem.t;
  totalAmount : float;
  status : string;
  deliveryAddress : Address.t;
  paymentMethod : string;
  orderDate : Z
}.
End Order.

(** An order document with its [_id]. *)
Definition OrderDoc : Type := ObjectId * Order.t.

(** The enum of [orderSchema.status], also the route's [validStatuses]. *)
Definition validStatuses : list string :=
  ["pending"; "processing"; "shipped"; "delivered"; "cancelled"].

(** The enum of [orderSchema.paymentMethod]. *)
Definition paymentMethods : list string :=
  ["card"; "cash_on_delivery"; "upi"].

(** ** The database *)

Record Db := mkDb {
  products : gmap ObjectId Product.t;
  users : gmap string User.t;
  carts : gmap string (list CartItem.t);
  orders : gmap ObjectId Order.t;
  now : Z
}.

Definition set_carts (f : gmap string (list CartItem.t) → gmap string (list CartItem.t))
    (d : Db) : Db :=
  mkDb (products d) (users d) (f (carts d)) (orders d) (now d).

Definition set_orders (f : gmap ObjectId Order.t → gmap ObjectId Order.t)
    (d : Db) : Db :=
  mkDb (products d) (users d) (carts d) (f (orders d)) (now d).

(** ** Responses *)

(** What a route can throw inside its [try] block. *)
Inductive Error :=
| StoreFailure      (* the awaited store operation rejected *)
| ValidationError   (* a schema validator refused the document *)
| TypeError.        (* a property was read on [null] *)

(** The product fields kept by [populate('items.productId', 'name category brand')]. *)
Module ProductSummary.
Record t := mk {
  _id : ObjectId;
  name : string;
  category : string;
  brand : string
}.
End ProductSummary.

Inductive Body :=
| Message (message : string)
| MessageError (message : string) (error : Error)
| Cleared (message : string) (previousItemCount : nat) (newItemCount : option nat)
| Placed (message : string) (order : OrderDoc)
| Updated (message : string) (order : OrderDoc)
    (populated : list (option ProductSummary.t)).

Record Response := json {
  status : nat;
  body : Body
}.

(** ** Routes as computations *)

Inductive Res (A : Type) :=
| Val (a : A)
| Exit (r : Response)
| Raise (e : Error).
Arguments Val {A} a.
Arguments Exit {A} r.
Arguments Raise {A} e.

Record World := mkWorld {
  db : Db;
  faults : list bool
}.

Definition Route (A : Type) : Type := World → Res A * World.

#[global] Instance Route_ret : MRet Route := λ A a w, (Val a, w).

#[global] Instance Route_bind : MBind Route := λ A B k m w,
  match m w with
  | (Val a, w') => k a w'
  | (Exit r, w') => (Exit r, w')
  | (Raise e, w') => (Raise e, w')
  end.

(** [return res.status(..).json(..)] *)
Definition reply {A} (r : Response) : Route A := λ w, (Exit r, w).

(** [throw] *)
Definition raise {A} (e : Error) : Route A := λ w, (Raise e, w).

(** One round trip to the store: it rejects when the next fault flag is set. *)
Definition await : Route unit := λ w,
  let w' := mkWorld (db w) (tail (faults w)) in
  match faults w with
  | true :: _ => (Raise StoreFailure, w')
  | _ => (Val (), w')
  end.

Definition read {A} (f : Db → A) : Route A := λ w, (Val (f (db w)), w).

Definition write (f : Db → Db) : Route unit := λ w,
  (Val (), mkWorld (f (db w)) (faults w)).

(** [try { body } catch (error) { res.status(500).json(handler error) }] *)
Definition try_catch (body : Route Response) (handler : Error → Response)
    (w : World) : Response * World :=
  match body w with
  | (Val r, w') => (r, w')
  | (Exit r, w') => (r, w')
  | (Raise e, w') => (handler e, w')
  end.

(** A request served on database [d] under the fault schedule [fl]. *)
Definition serve (route : World → Response * World) (fl : list bool) (d : Db)
    : Response * Db :=
  let (r, w') := route (mkWorld d fl) in (r, db w').

(** ** Schema validation *)

(** [required: true] on a String path: the empty string is refused. *)
Definition required (s : string) : bool :=
  match s with EmptyString => false | _ => true end.

(** [min: m] on a Number path. *)
Definition min_ok (m x : float) : bool := PrimFloat.leb m x.

(** cartSchema *)
Definition validate_cart (c : Cart.t) : bool :=
  required (Cart.userEmail c)
  && forallb (λ item, min_ok 1 (CartItem.quantity item)) (Cart.items c).

(** orderSchema *)
Definition validate_order_item (i : OrderItem.t) : bool :=
  required (OrderItem.productName i)
  && required (OrderItem.productImage i)
  && min_ok 1 (OrderItem.quantity i)
  && min_ok 0 (OrderItem.price i).

Definition validate_address (a : Address.t) : bool :=
  required (Address.fullName a) && required (Address.address a)
  && required (Address.city a) && required (Address.state a)
  && required (Address.zipCode a) && required (Address.phone a).

Definition validate_order (o : Order.t) : bool :=
  required (Order.userEmail o)
  && forallb validate_order_item (Order.items o)
  && min_ok 0 (Order.totalAmount o)
  && includes validStatuses (Order.status o)
  && validate_address (Order.deliveryAddress o)
  && includes paymentMethods (Order.paymentMethod o).

(** ** Store operations *)

(** [Cart.findOne({ userEmail })] *)
Definition Cart_findOne (userEmail : string) : Route (option Cart.t) :=
  await;; read (λ d, Cart.mk userEmail <$> carts d !! userEmail).

(** [populate('items.productId')] on the items of a cart. *)
Definition populate (d : Db) (items : list CartItem.t) : list PopulatedItem.t :=
  (λ item,
     let id := CartItem.productId item in
     PopulatedItem.mk (pair id <$> products d !! id) (CartItem.quantity item))
  <$> items.

(** [Cart.findOne({ userEmail }).populate('items.productId')] *)
Definition Cart_findOne_populate (userEmail : string)
    : Route (option (list PopulatedItem.t)) :=
  await;; read (λ d, populate d <$> carts d !! userEmail).

(** [cart.save()]: the validators run first, then the document is written
    (inserted when the cart is new). *)
Definition Cart_save (cart : Cart.t) : Route unit :=
  if validate_cart cart then
    await;; write (set_carts <[Cart.userEmail cart := Cart.items cart]>)
  else raise ValidationError.

(** [Order.create(doc)] for a [doc] that leaves [orderDate] to its default,
    [Date.now]: validation, then an insert under a fresh [_id]. *)
Definition Order_create (doc : Z → Order.t) : Route OrderDoc :=
  orderDate ← read now;
  let doc := doc orderDate in
  if validate_order doc then
    await;;
    _id ← read (λ d, fresh (dom (orders d)));
    write (set_orders <[_id := doc]>);;
    mret (_id, doc)
  else raise ValidationError.

(** [User.findOne({ email })]; an [undefined] email matches no account. *)
Definition User_findOne (email : option string) : Route (option User.t) :=
  await;; read (λ d, email ≫= λ e, users d !! e).

(** [Order.findByIdAndUpdate(id, { status }, { new: true, runValidators: true })
      .populate('items.productId', 'name category brand')]:
    the update validators run first; only the [status] path is set; the
    result is the updated document with its product references expanded. *)
Definition set_status (status : string) (o : Order.t) : Order.t :=
  Order.mk (Order.userEmail o) (Order.items o) (Order.totalAmount o) status
    (Order.deliveryAddress o) (Order.paymentMethod o) (Order.orderDate o).

Definition summaries (d : Db) (items : list OrderItem.t)
    : list (option ProductSummary.t) :=
  (λ item,
     let id := OrderItem.productId item in
     (λ p, ProductSummary.mk id (Product.name p) (Product.category p)
             (Product.brand p)) <$> products d !! id)
  <$> items.

Definition Order_findByIdAndUpdate (id : ObjectId) (status : string)
    : Route (option (OrderDoc * list (option ProductSummary.t))) :=
  if includes validStatuses status then
    await;;
    found ← read (λ d, orders d !! id);
    match found with
    | None => mret None
    | Some o =>
        let updated := set_status status o in
        write (set_orders <[id := updated]>);;
        populated ← read (λ d, summaries d (Order.items updated));
        mret (Some ((id, updated), populated))
    end
  else raise ValidationError.

(** ** Request bodies *)

Module AddBody.
Record t := mk {
  userEmail : option string;
  productId : option ObjectId;
  quantity : option float
}.
End AddBody.

Module UpdateBody.
Record t := mk {
  userEmail : option string;
  productId : option ObjectId;
  quantity : option float
}.
End UpdateBody.

Module RemoveBody.
Record t := mk {
  userEmail : option string;
  productId : option ObjectId
}.
End RemoveBody.

Module ClearBody.
Record t := mk {
  userEmail : option string
}.
End ClearBody.

Module OrderBody.
Record t := mk {
  userEmail : option string;
  deliveryAddress : option AddressInput.t;
  paymentMethod : option string
}.
End OrderBody.

Module StatusBody.
Record t := mk {
  email : option string;
  status : option string
}.
End StatusBody.

(** The [catch] block of most routes: a 500 with a fixed message. *)
Definition server_error (message : string) (_ : Error) : Response :=
  json 500 (Message message).

(** ** Cart routes *)

(** [item.quantity += quantityToAdd] *)
Definition increase (quantityToAdd : float) (item : CartItem.t) : CartItem.t :=
  CartItem.mk (CartItem.productId item)
    (CartItem.quantity item + quantityToAdd)%float.

(** [item.quantity = quantity] *)
Definition set_quantity (quantity : float) (item : CartItem.t) : CartItem.t :=
  CartItem.mk (CartItem.productId item) quantity.

(** [item => item.productId.equals(productId)] *)
Definition refers_to (productId : ObjectId) (item : CartItem.t) : bool :=
  ObjectId_equals (CartItem.productId item) productId.

(** POST /api/cart/add *)
Definition post_api_cart_add (body : AddBody.t) : World → Response * World :=
  try_catch
    match truthy_string (AddBody.userEmail body), AddBody.productId body with
    | Some userEmail, Some productId =>
        let quantityToAdd := or_default (AddBody.quantity body) 1 in
        if (quantityToAdd <=? 0)%float then
          reply (json 400 (Message "Quantity must be greater than 0"))
        else
          found ← Cart_findOne userEmail;
          let cart := default (Cart.mk userEmail []) found in
          let existingItemIndex := findIndex (refers_to productId) (Cart.items cart) in
          let items :=
            match existingItemIndex with
            | Some i => alter (increase quantityToAdd) i (Cart.items cart)
            | None => Cart.items cart ++ [CartItem.mk productId quantityToAdd]
            end in
          Cart_save (Cart.mk (Cart.userEmail cart) items);;
          mret (json 200 (Message "Product added to cart successfully"))
    | _, _ => reply (json 400 (Message "User email and product ID are required"))
    end
    (server_error "Failed to add product to cart").

(** POST /api/cart/remove *)
Definition post_api_cart_remove (body : RemoveBody.t) : World → Response * World :=
  try_catch
    match truthy_string (RemoveBody.userEmail body), RemoveBody.productId body with
    | Some userEmail, Some productId =>
        found ← Cart_findOne userEmail;
        match found with
        | None => reply (json 404 (Message "Cart not found"))
        | Some cart =>
            let initialCount := length (Cart.items cart) in
            let items := List.filter (λ item, negb (refers_to productId item))
                           (Cart.items cart) in
            if bool_decide (length items = initialCount) then
              reply (json 404 (Message "Product not found in cart"))
            else
              Cart_save (Cart.mk (Cart.userEmail cart) items);;
              mret (json 200 (Message "Product removed from cart successfully"))
        end
    | _, _ => reply (json 400 (Message "User email and product ID are required"))
    end
    (server_error "Failed to remove product from cart").

(** POST /api/cart/update *)
Definition post_api_cart_update (body : UpdateBody.t) : World → Response * World :=
  try_catch
    match truthy_string (UpdateBody.userEmail body), UpdateBody.productId body,
          UpdateBody.quantity body with
    | Some userEmail, Some productId, Some quantity =>
        found ← Cart_findOne userEmail;
        match found with
        | None => reply (json 404 (Message "Cart not found"))
        | Some cart =>
            match findIndex (refers_to productId) (Cart.items cart) with
            | None => reply (json 404 (Message "Product not found in cart"))
            | Some itemIndex =>
                let items :=
                  if (quantity <=? 0)%float then delete itemIndex (Cart.items cart)
                  else alter (set_quantity quantity) itemIndex (Cart.items cart) in
                Cart_save (Cart.mk (Cart.userEmail cart) items);;
                mret (json 200 (Message "Cart updated successfully"))
            end
        end
    | _, _, _ =>
        reply (json 400 (Message "User email, product ID, and quantity are required"))
    end
    (server_error "Failed to update cart").

(** POST /api/cart/clear *)
Definition post_api_cart_clear (body : ClearBody.t) : World → Response * World :=
  try_catch
    match truthy_string (ClearBody.userEmail body) with
    | Some userEmail =>
        found ← Cart_findOne userEmail;
        match found with
        | None =>
            Cart_save (Cart.mk userEmail []);;
            mret (json 200 (Cleared "Cart not found, created empty cart" 0 None))
        | Some cart =>
            let previousItemCount := length (Cart.items cart) in
            Cart_save (Cart.mk (Cart.userEmail cart) []);;
            mret (json 200 (Cleared "Cart cleared successfully" previousItemCount (Some 0)))
        end
    | None => reply (json 400 (Message "User email is required"))
    end
    (λ error, json 500 (MessageError "Failed to clear cart" error)).

(** ** Checkout *)

(** The six sub-fields of the delivery address, all truthy, or nothing. *)
Definition complete_address (a : AddressInput.t) : option Address.t :=
  fullName ← truthy_string (AddressInput.fullName a);
  address ← truthy_string (AddressInput.address a);
  city ← truthy_string (AddressInput.city a);
  state ← truthy_string (AddressInput.state a);
  zipCode ← truthy_string (AddressInput.zipCode a);
  phone ← truthy_string (AddressInput.phone a);
  Some (Address.mk fullName address city state zipCode phone).

(** The snapshot of one populated cart item. *)
Definition snapshot (_id : ObjectId) (product : Product.t) (quantity : float)
    : OrderItem.t :=
  OrderItem.mk _id (Product.name product) (Product.image product) quantity
    (Product.price product).

(** [cart.items.map(item => { .. totalAmount += itemTotal; return {..} })]:
    the callback reads [item.productId.price], which throws on a [null]
    reference, and adds to the running [totalAmount] of the enclosing scope. *)
Fixpoint map_order_items (items : list PopulatedItem.t) (totalAmount : float)
    : Res (list OrderItem.t * float) :=
  match items with
  | [] => Val ([], totalAmount)
  | item :: rest =>
      match PopulatedItem.productId item with
      | None => Raise TypeError
      | Some (_id, product) =>
          let itemTotal :=
            (Product.price product * PopulatedItem.quantity item)%float in
          let totalAmount := (totalAmount + itemTotal)%float in
          match map_order_items rest totalAmount with
          | Val (orderItems, totalAmount) =>
              Val (snapshot _id product (PopulatedItem.quantity item) :: orderItems,
                   totalAmount)
          | Exit r => Exit r
          | Raise e => Raise e
          end
      end
  end.

Definition lift {A} (r : Res A) : Route A := λ w, (r, w).

(** POST /api/orders *)
Definition post_api_orders (body : OrderBody.t) : World → Response * World :=
  try_catch
    match truthy_string (OrderBody.userEmail body), OrderBody.deliveryAddress body,
          truthy_string (OrderBody.paymentMethod body) with
    | Some userEmail, Some deliveryAddress, Some paymentMethod =>
        match complete_address deliveryAddress with
        | None => reply (json 400 (Message "Complete delivery address is required"))
        | Some deliveryAddress =>
            cart ← Cart_findOne_populate userEmail;
            match cart with
            | None | Some [] => reply (json 400 (Message "Cart is empty"))
            | Some items =>
                '(orderItems, totalAmount) ← lift (map_order_items items 0);
                order ← Order_create
                  (Order.mk userEmail orderItems (round2 totalAmount) "pending"
                     deliveryAddress paymentMethod);
                Cart_save (Cart.mk userEmail []);;
                mret (json 201 (Placed "Order placed successfully" order))
            end
        end
    | _, _, _ =>
        reply (json 400
          (Message "User email, delivery address, and payment method are required"))
    end
    (server_error "Failed to create order").

(** ** Admin *)

(** [!user || user.role !== 'admin'] *)
Definition not_admin (user : option User.t) : bool :=
  match user with
  | None => true
  | Some u => negb (bool_decide (User.role u = "admin"))
  end.

(** The [checkAdmin] middleware: [inr user] is [req.user = user; next()]. *)
Definition checkAdmin (email : option string) (w : World)
    : (Response + User.t) * World :=
  let body : Route User.t :=
    match truthy_string email with
    | None => reply (json 400 (Message "Email is required for admin verification"))
    | Some email =>
        user ← User_findOne (Some (toLowerCase email));
        match user with
        | None => reply (json 404 (Message "User not found"))
        | Some user =>
            if negb (bool_decide (User.role user = "admin")) then
              reply (json 403 (Message "Admin access required"))
            else mret user
        end
    end in
  match body w with
  | (Val user, w') => (inr user, w')
  | (Exit r, w') => (inl r, w')
  | (Raise e, w') =>
      (inl (json 500 (Message "Server error during admin verification")), w')
  end.

(** The admin verification that every admin route carries inline, before
    its operation:
    [const user = await User.findOne({ email: email?.toLowerCase() });
     if (!user || user.role !== 'admin') return res.status(403).json(..)]. *)
Definition admin_verification (email : option string) (operation : Route Response)
    : Route Response :=
  user ← User_findOne (toLowerCase <$> email);
  if not_admin user then
    reply (json 403 (Message "Admin access required"))
  else operation.

(** PUT /api/admin/orders/:id; [id] is [None] when the path parameter is not
    a well-formed object id. *)
Definition put_api_admin_orders_id (id : option ObjectId) (body : StatusBody.t)
    : World → Response * World :=
  try_catch
    match id with
    | None => reply (json 400 (Message "Invalid order ID format"))
    | Some id =>
        admin_verification (StatusBody.email body)
          match StatusBody.status body with
          | Some status =>
              if includes validStatuses status then
                updatedOrder ← Order_findByIdAndUpdate id status;
                match updatedOrder with
                | None => reply (json 404 (Message "Order not found"))
                | Some (order, populated) =>
                    mret (json 200
                      (Updated "Order status updated successfully" order populated))
                end
              else reply (json 400 (Message "Invalid order status"))
          | None => reply (json 400 (Message "Invalid order status"))
          end
    end
    (server_error "Failed to update order").

(** ** Vocabulary of the specification *)

(** The error taxonomy, by HTTP status. *)
Definition validation_error (r : Response) : Prop := status r = 400.
Definition generic_server_error (r : Response) : Prop := status r = 500.

(** The store rejects its [n]-th awaited call of the request. *)
Definition rejects (fl : list bool) (n : nat) : bool :=
  bool_decide (fl !! n = Some true).

(** The account a claimed email belongs to, if any. *)
Definition account (d : Db) (email : option string) : option User.t :=
  (toLowerCase <$> email) ≫= λ e, users d !! e.

(** A quantity the specification calls positive. *)
Definition positive_quantity (q : float) : Prop := (0 <? q)%float = true.

(** [q1 + ... + qN], added up in request order. *)
Definition sum_from (q1 : float) (qs : list float) : float :=
  fold_left PrimFloat.add qs q1.

(** The product is among the line items of the cart. *)
Definition in_cart (productId : ObjectId) (items : list CartItem.t) : Prop :=
  productId ∈ CartItem.productId <$> items.

(** What one add does to the line items: merge into the line of the
    product, or append a new line. *)
Definition add_item (productId : ObjectId) (q : float) (items : list CartItem.t)
    : list CartItem.t :=
  match findIndex (refers_to productId) items with
  | Some i => alter (increase q) i items
  | None => items ++ [CartItem.mk productId q]
  end.

(** A run of add requests for one user and one product, one quantity each. *)
Fixpoint add_each (userEmail : string) (productId : ObjectId) (qs : list float)
    (w : World) : list Response * World :=
  match qs with
  | [] => ([], w)
  | q :: qs =>
      let (r, w) :=
        post_api_cart_add (AddBody.mk (Some userEmail) (Some productId) (Some q)) w in
      let (rs, w) := add_each userEmail productId qs w in
      (r :: rs, w)
  end.

(** The cart invariant: every quantity is at least 1 and no product is
    referenced twice. *)
Definition cart_ok (items : list CartItem.t) : Prop :=
  Forall (λ item, (1 <=? CartItem.quantity item)%float = true) items
  ∧ NoDup (CartItem.productId <$> items).

Definition db_ok (d : Db) : Prop :=
  map_Forall (λ _ items, cart_ok items) (carts d).

(** What a route may do to the carts: nothing, or replace the line items of
    one cart by items that pass the schema and repeat no product unless the
    old ones did. *)
Definition cart_write (before after : gmap string (list CartItem.t)) : Prop :=
  after = before
  ∨ ∃ e items,
      after = <[e := items]> before
      ∧ validate_cart (Cart.mk e items) = true
      ∧ (NoDup (CartItem.productId <$> default [] (before !! e)) →
         NoDup (CartItem.productId <$> items)).

(** The line items of a cart with every product reference resolved, as
    (product document, quantity) pairs; [None] when a reference dangles. *)
Fixpoint resolve (d : Db) (items : list CartItem.t)
    : option (list (ProductDoc * float)) :=
  match items with
  | [] => Some []
  | item :: rest =>
      let id := CartItem.productId item in
      product ← products d !! id;
      lines ← resolve d rest;
      Some (((id, product), CartItem.quantity item) :: lines)
  end.

Definition sum (xs : list float) : float := fold_left PrimFloat.add xs 0%float.

(** The order total in the words of the specification: the sum over the
    line items of quantity times price, rounded to 2 decimal places. *)
Definition order_total (lines : list (ProductDoc * float)) : float :=
  round2 (sum ((λ line, (line.2 * Product.price line.1.2)%float) <$> lines)).

(** The snapshot items in the words of the specification: product id,
    name, image, quantity and unit price of each line. *)
Definition order_snapshots (lines : list (ProductDoc * float)) : list OrderItem.t :=
  (λ line,
     OrderItem.mk line.1.1 (Product.name line.1.2) (Product.image line.1.2)
       line.2 (Product.price line.1.2))
  <$> lines.

(** A syntactically valid checkout request: email, the six address fields
    and the payment method are all present. *)
Definition valid_checkout (body : OrderBody.t) (userEmail : string)
    (deliveryAddress : Address.t) (paymentMethod : string) : Prop :=
  truthy_string (OrderBody.userEmail body) = Some userEmail
  ∧ OrderBody.deliveryAddress body ≫= complete_address = Some deliveryAddress
  ∧ truthy_string (OrderBody.paymentMethod body) = Some paymentMethod.

(** ** A small shop, used to run the routes on concrete requests *)

Definition productX : Product.t :=
  Product.mk "Kettle" "Kitchen" 10 "Acme" 4.5 true "Steel kettle" "/img/kettle.png".

Definition productY : Product.t :=
  Product.mk "Mug" "Kitchen" 5.5 "Acme" 4 true "Stoneware mug" "/img/mug.png".

Definition alice : User.t := User.mk "Alice" "alice@shop.test" "$2a$12$hash" "user".
Definition root : User.t := User.mk "Root" "root@shop.test" "$2a$12$hash" "admin".

Definition home : AddressInput.t :=
  AddressInput.mk (Some "Alice A") (Some "1 Main St") (Some "Springfield")
    (Some "IL") (Some "62701") (Some "555-0100").

Definition home_address : Address.t :=
  Address.mk "Alice A" "1 Main St" "Springfield" "IL" "62701" "555-0100".

(** Alice's cart holds 3 of X (price 10.00) and 1 of Y (price 5.50). *)
Definition alice_cart : list CartItem.t :=
  [CartItem.mk 1 3; CartItem.mk 2 1].

Definition shop : Db :=
  mkDb {[ 1%positive := productX; 2%positive := productY ]}
       {[ "alice@shop.test" := alice; "root@shop.test" := root ]}
       {[ "alice@shop.test" := alice_cart ]}
       ∅
       1700000000000%Z.


Definition checkout_by (paymentMethod : string) : OrderBody.t :=
  OrderBody.mk (Some "alice@shop.test") (Some home) (Some paymentMethod).

Definition alice_order : Order.t :=
  Order.mk "alice@shop.test"
    [OrderItem.mk 1 "Kettle" "/img/kettle.png" 3 10;
     OrderItem.mk 2 "Mug" "/img/mug.png" 1 5.5]
    35.5 "pending" home_address "upi" 1700000000000%Z.

(** The shop once Alice's order has been placed. *)
Definition shop_with_order : Db :=
  mkDb (products shop) (users shop) {[ "alice@shop.test" := [] ]}
       {[ 1%positive := alice_order ]} (now shop).

(** ** Routes that answer with data *)

(** The [try] block of a route whose success is [res.json(data)]: [inr data]
    is that answer (status 200), [inl r] any other response. *)
Definition try_catch_json {A} (body : Route A) (handler : Error → Response)
    (w : World) : (Response + A) * World :=
  match body w with
  | (Val a, w') => (inr a, w')
  | (Exit r, w') => (inl r, w')
  | (Raise e, w') => (inl (handler e), w')
  end.

Definition serve_json {A} (route : World → (Response + A) * World)
    (fl : list bool) (d : Db) : (Response + A) * Db :=
  let (r, w') := route (mkWorld d fl) in (r, db w').

Definition set_products (f : gmap ObjectId Product.t → gmap ObjectId Product.t)
    (d : Db) : Db :=
  mkDb (f (products d)) (users d) (carts d) (orders d) (now d).

(** The cart that GET /api/cart sends: the stored cart with its items
    populated, or the bare [{ items: [] }] when the user has no cart. *)
Module CartView.
Record t := mk {
  userEmail : option string;
  items : list PopulatedItem.t
}.
End CartView.

(** GET /api/cart *)
Definition get_api_cart (userEmail : option string)
    : World → (Response + CartView.t) * World :=
  try_catch_json
    match truthy_string userEmail with
    | None => reply (json 400 (Message "User email is required"))
    | Some userEmail =>
        cart ← Cart_findOne_populate userEmail;
        match cart with
        | None => mret (CartView.mk None [])
        | Some items => mret (CartView.mk (Some userEmail) items)
        end
    end
    (server_error "Failed to fetch cart").

(** An order as the read routes send it: the document and, item by item,
    the populated product reference. *)
Definition OrderView : Type := OrderDoc * list (option ProductSummary.t).

(** [Order.findOne({ _id: id, userEmail })
      .populate('items.productId', 'name category brand')] *)
Definition Order_findOne (id : ObjectId) (userEmail : string)
    : Route (option OrderView) :=
  await;;
  read (λ d,
    o ← orders d !! id;
    if bool_decide (Order.userEmail o = userEmail)
    then Some ((id, o), summaries d (Order.items o))
    else None).

(** GET /api/orders/:id *)
Definition get_api_orders_id (id : option ObjectId) (userEmail : option string)
    : World → (Response + OrderView) * World :=
  try_catch_json
    match id with
    | None => reply (json 400 (Message "Invalid order ID format"))
    | Some id =>
        match truthy_string userEmail with
        | None => reply (json 400 (Message "User email is required"))
        | Some userEmail =>
            order ← Order_findOne id userEmail;
            match order with
            | None => reply (json 404 (Message "Order not found"))
            | Some order => mret order
            end
        end
    end
    (server_error "Failed to fetch order").

(** [Product.findById(id)] *)
Definition Product_findById (id : ObjectId) : Route (option Product.t) :=
  await;; read (λ d, products d !! id).

(** GET /api/products/:id *)
Definition get_api_products_id (id : option ObjectId)
    : World → (Response + ProductDoc) * World :=
  try_catch_json
    match id with
    | None => reply (json 400 (Message "Invalid product ID format"))
    | Some id =>
        product ← Product_findById id;
        match product with
        | None => reply (json 404 (Message "Product not found"))
        | Some product => mret (id, product)
        end
    end
    (server_error "Failed to fetch product").

(** The inline admin verification in a route that answers with data. *)
Definition admin_only {A} (email : option string) (operation : Route A) : Route A :=
  user ← User_findOne (toLowerCase <$> email);
  if not_admin user then
    reply (json 403 (Message "Admin access required"))
  else operation.

(** [Product.findByIdAndDelete(id)] *)
Definition Product_findByIdAndDelete (id : ObjectId) : Route (option Product.t) :=
  await;;
  found ← read (λ d, products d !! id);
  match found with
  | None => mret None
  | Some product => write (set_products (delete id));; mret (Some product)
  end.

(** The answer of a product deletion:
    [{ message, deletedProduct: { id, name } }]. *)
Module Deleted.
Record t := mk {
  message : string;
  id : ObjectId;
  name : string
}.
End Deleted.

(** DELETE /api/admin/products/:id; the admin's email comes in a header. *)
Definition delete_api_admin_products_id (id : option ObjectId)
    (email : option string) : World → (Response + Deleted.t) * World :=
  try_catch_json
    match id with
    | None => reply (json 400 (Message "Invalid product ID format"))
    | Some id =>
        admin_only email
          (deletedProduct ← Product_findByIdAndDelete id;
           match deletedProduct with
           | None => reply (json 404 (Message "Product not found"))
           | Some deletedProduct =>
               mret (Deleted.mk "Product deleted successfully" id
                       (Product.name deletedProduct))
           end)
    end
    (server_error "Failed to delete product").

(** ** Login *)

Module LoginBody.
Record t := mk {
  email : option string;
  password : option string
}.
End LoginBody.

(** The answer of a login: [{ message, user: { name, email, role } }]. *)
Module LoggedIn.
Record t := mk {
  message : string;
  name : string;
  email : string;
  role : string
}.
End LoggedIn.

Section bcrypt.

(** [bcrypt.compare(password, hash)], of the bcryptjs package. *)
Variable bcrypt_compare : string → string → bool.

(** POST /api/login *)
Definition post_api_login (body : LoginBody.t)
    : World → (Response + LoggedIn.t) * World :=
  try_catch_json
    match truthy_string (LoginBody.email body),
          truthy_string (LoginBody.password body) with
    | Some email, Some password =>
        user ← User_findOne (Some (toLowerCase email));
        match user with
        | None => reply (json 401 (Message "Invalid email or password"))
        | Some user =>
            let isPasswordValid := bcrypt_compare password (User.password user) in
            if negb isPasswordValid then
              reply (json 401 (Message "Invalid email or password"))
            else
              mret (LoggedIn.mk "Login successful" (User.name user)
                      (User.email user) (User.role user))
        end
    | _, _ => reply (json 400 (Message "Email and password are required"))
    end
    (server_error "Login failed. Please try again.").


End bcrypt.

(** ** Catalog facets *)

(** The order of [array.sort()] on strings, code unit by code unit. *)
Definition string_le (a b : string) : Prop := String.leb a b = true.

#[global] Instance string_le_dec a b : Decision (string_le a b).
Proof. unfold string_le. apply _. Defined.

(** [(await Product.distinct(field)).sort()]: the values of the field over
    the catalog, each once, in sorted order. *)
Definition distinct_sorted (field : Product.t → string) : Route (list string) :=
  await;;
  read (λ d,
    merge_sort string_le (remove_dups (field <$> (map_to_list (products d)).*2))).

(** The [catch] block of the facet routes sends the error along. *)
Definition server_error_with (message : string) (error : Error) : Response :=
  json 500 (MessageError message error).

(** GET /api/categories *)
Definition get_api_categories : World → (Response + list string) * World :=
  try_catch_json (distinct_sorted Product.category)
    (server_error_with "Failed to fetch categories").

(** GET /api/brands *)
Definition get_api_brands : World → (Response + list string) * World :=
  try_catch_json (distinct_sorted Product.brand)
    (server_error_with "Failed to fetch brands").

(** ** Frontend configuration *)

(** [window.getApiUrl] of the configuration script:
    [endpoint.startsWith('/') ? endpoint : '/' + endpoint]. *)
Definition slash : Ascii.ascii := Ascii.ascii_of_nat 47.

Definition getApiUrl (endpoint : string) : string :=
  match endpoint with
  | String c _ => if bool_decide (c = slash) then endpoint else String slash endpoint
  | EmptyString => String slash endpoint
  end.

(** What a cart route does to the database, seen with its answer: either
    the answer is not a success and nothing is written, or it is the
    success 200 and the line items of the requesting user's cart, and
    nothing else, are replaced. *)
Definition one_cart_effect (userEmail : option string) (w : World)
    (out : Response * World) : Prop :=
  (status out.1 ≠ 200 ∧ db out.2 = db w)
  ∨ (status out.1 = 200
     ∧ ∃ e items, truthy_string userEmail = Some e
                  ∧ db out.2 = set_carts <[e := items]> (db w)).

(** One request to each cart route, as a sum. *)
Inductive CartRequest :=
| Add (body : AddBody.t)
| Update (body : UpdateBody.t)
| Remove (body : RemoveBody.t)
| Clear (body : ClearBody.t).

Definition cart_route (request : CartRequest) : World → Response * World :=
  match request with
  | Add body => post_api_cart_add body
  | Update body => post_api_cart_update body
  | Remove body => post_api_cart_remove body
  | Clear body => post_api_cart_clear body
  end.

Definition cart_owner (request : CartRequest) : option string :=
  match request with
  | Add body => AddBody.userEmail body
  | Update body => UpdateBody.userEmail body
  | Remove body => RemoveBody.userEmail body
  | Clear body => ClearBody.userEmail body
  end.

(** The request names its user and, where the route needs them, its
    product and its quantity. *)
Definition has_required_fields (request : CartRequest) : bool :=
  match request with
  | Add body =>
      bool_decide (is_Some (truthy_string (AddBody.userEmail body)))
      && bool_decide (is_Some (AddBody.productId body))
  | Update body =>
      bool_decide (is_Some (truthy_string (UpdateBody.userEmail body)))
      && bool_decide (is_Some (UpdateBody.productId body))
      && bool_decide (is_Some (UpdateBody.quantity body))
  | Remove body =>
      bool_decide (is_Some (truthy_string (RemoveBody.userEmail body)))
      && bool_decide (is_Some (RemoveBody.productId body))
  | Clear body =>
      bool_decide (is_Some (truthy_string (ClearBody.userEmail body)))
  end.

(** ** Runs of requests *)

(** The same shop with a second customer, Bob, and his cart. *)
Definition bob : User.t := User.mk "Bob" "bob@shop.test" "$2a$12$bobhash" "user".

Definition busy_shop : Db :=
  mkDb (products shop)
       (<["bob@shop.test" := bob]> (users shop))
       (<["bob@shop.test" := [CartItem.mk 2 2]]> (carts shop))
       (orders shop) (now shop).

(** A stand-in for [bcrypt.compare] on the shop's accounts: the stored
    hashes match the password "secret1" only. *)
Definition shop_compare (password hash : string) : bool :=
  bool_decide (password = "secret1").

(** * Properties *)

Arguments truthy_number : simpl never.
Arguments truthy_string : simpl never.
Arguments validate_cart : simpl never.
Arguments validate_order : simpl never.
Arguments includes : simpl never.
Arguments round2 : simpl never.

(** Unfold the plumbing of a route. *)
Ltac run :=
  unfold try_catch, Cart_findOne, Cart_findOne_populate, Cart_save,
    Order_create, User_findOne, Order_findByIdAndUpdate, await, read, write,
    reply, raise, lift, server_error, mbind, mret, Route_bind, Route_ret;
  simpl.

(** Split on the innermost scrutinee of the goal. *)
Ltac inner_case :=
  match goal with
  | |- context [match ?x with _ => _ end] =>
      lazymatch x with
      | context [match _ with _ => _ end] => fail
      | _ => destruct x eqn:?
      end
  end.

Ltac cases := repeat (inner_case; simpl; try done).

(** ** Numbers *)

Section floats.
Local Open Scope float_scope.

Lemma SFcompare_finite_refl s m e :
  SFcompare (S754_finite s m e) (S754_finite s m e) = Some Eq.
Proof.
  simpl. by destruct s; rewrite Z.compare_refl, ?Pos.compare_cont_refl.
Qed.

Lemma positive_truthy q : (0 <? q) = true → truthy_number q = true.
Proof.
  unfold truthy_number, is_nan.
  rewrite FloatAxioms.ltb_spec, !FloatAxioms.eqb_spec. unfold SFltb, SFeqb.
  change (Prim2SF 0) with (S754_zero false).
  destruct (Prim2SF q) as [s|s| |s m e];
    rewrite ?SFcompare_finite_refl; try destruct s; done.
Qed.

Lemma positive_not_le_zero q : (0 <? q) = true → (q <=? 0) = false.
Proof.
  rewrite FloatAxioms.ltb_spec, FloatAxioms.leb_spec. unfold SFltb, SFleb.
  change (Prim2SF 0) with (S754_zero false).
  by destruct (Prim2SF q) as [s|s| |s m e]; try destruct s.
Qed.

Lemma negative_truthy q : (q <? 0) = true → truthy_number q = true.
Proof.
  unfold truthy_number, is_nan.
  rewrite FloatAxioms.ltb_spec, !FloatAxioms.eqb_spec. unfold SFltb, SFeqb.
  change (Prim2SF 0) with (S754_zero false).
  destruct (Prim2SF q) as [s|s| |s m e];
    rewrite ?SFcompare_finite_refl; try destruct s; done.
Qed.

Lemma negative_le_zero q : (q <? 0) = true → (q <=? 0) = true.
Proof.
  rewrite FloatAxioms.ltb_spec, FloatAxioms.leb_spec. unfold SFltb, SFleb.
  change (Prim2SF 0) with (S754_zero false).
  by destruct (Prim2SF q) as [s|s| |s m e]; try destruct s.
Qed.

(** A number that is not above zero is a zero, a negative number or NaN;
    of these only the negative ones are truthy. *)
Lemma le_zero_cases q :
  (q <=? 0) = true → (q <? 0) = true ∨ truthy_number q = false.
Proof.
  unfold truthy_number, is_nan.
  rewrite FloatAxioms.ltb_spec, FloatAxioms.leb_spec, !FloatAxioms.eqb_spec.
  unfold SFltb, SFleb, SFeqb.
  change (Prim2SF 0) with (S754_zero false).
  destruct (Prim2SF q) as [s|s| |s m e]; try destruct s; simpl; auto.
Qed.

Lemma float_mul_comm x y : x * y = y * x.
Proof.
  rewrite <- (SF2Prim_Prim2SF (x * y)), <- (SF2Prim_Prim2SF (y * x)).
  rewrite !FloatAxioms.mul_spec. f_equal. unfold SF64mul, SFmul.
  destruct (Prim2SF x) as [s|s| |s m e], (Prim2SF y) as [s'|s'| |s' m' e'];
    try destruct s; try destruct s'; try reflexivity.
  all: by rewrite (Pos.mul_comm m m'), (Z.add_comm e e').
Qed.
End floats.

(** ** Strings and lists *)

Lemma truthy_string_Some e : e ≠ "" → truthy_string (Some e) = Some e.
Proof. by destruct e. Qed.

Lemma truthy_string_inv s e : truthy_string s = Some e → s = Some e ∧ e ≠ "".
Proof. destruct s as [[]|]; unfold truthy_string; naive_solver. Qed.

Lemma findIndex_None (productId : ObjectId) (items : list CartItem.t) :
  findIndex (refers_to productId) items = None ↔ ¬ in_cart productId items.
Proof.
  unfold in_cart, refers_to, ObjectId_equals.
  induction items as [|item items IH]; simpl.
  - split; [intros _; apply not_elem_of_nil | done].
  - rewrite not_elem_of_cons. case_bool_decide as Heq.
    + split; [done | intros [Hne _]; by destruct Hne].
    + destruct (findIndex _ items); simpl in *.
      * split; [done | intros [_ Hn]; by apply IH in Hn].
      * split; [intros _; split; [congruence | by apply IH] | done].
Qed.

Lemma findIndex_Some (productId : ObjectId) (items : list CartItem.t) i :
  findIndex (refers_to productId) items = Some i →
  ∃ item, items !! i = Some item ∧ CartItem.productId item = productId.
Proof.
  unfold refers_to, ObjectId_equals. revert i.
  induction items as [|item items IH]; intros i; simpl; [done|].
  case_bool_decide.
  - intros [= <-]. eauto.
  - destruct (findIndex _ items) as [j|]; simpl; [|done].
    intros [= <-]. by apply IH.
Qed.

Lemma findIndex_snoc (productId : ObjectId) (items : list CartItem.t) q :
  ¬ in_cart productId items →
  findIndex (refers_to productId) (items ++ [CartItem.mk productId q])
  = Some (length items).
Proof.
  unfold in_cart, refers_to, ObjectId_equals.
  induction items as [|item items IH]; simpl.
  - intros _. by rewrite bool_decide_eq_true_2.
  - rewrite not_elem_of_cons. intros [? ?].
    rewrite bool_decide_eq_false_2 by done. by rewrite IH.
Qed.

Lemma add_item_absent productId q items :
  ¬ in_cart productId items →
  add_item productId q items = items ++ [CartItem.mk productId q].
Proof. intros H. unfold add_item. by apply findIndex_None in H as ->. Qed.

Lemma add_item_last productId q q' items :
  ¬ in_cart productId items →
  add_item productId q' (items ++ [CartItem.mk productId q])
  = items ++ [CartItem.mk productId (q + q')%float].
Proof.
  intros H. unfold add_item. rewrite findIndex_snoc by done.
  rewrite <- (Nat.add_0_r (length items)). by rewrite alter_app_r.
Qed.

(** ** POST /api/cart/add *)

(** A successful add wrote the merged line items. *)
Lemma add_success e p q w :
  e ≠ "" → truthy_number q = true → (q <=? 0)%float = false →
  let out := post_api_cart_add (AddBody.mk (Some e) (Some p) (Some q)) w in
  status out.1 = 200 →
  carts (db out.2)
  = <[e := add_item p q (default [] (carts (db w) !! e))]> (carts (db w)).
Proof.
  intros He Ht Hq. unfold post_api_cart_add. simpl.
  rewrite truthy_string_Some, Ht, Hq by done. run. unfold add_item.
  destruct w as [d [|[] fl]]; simpl; try done.
  all: destruct (carts d !! e) as [items|]; simpl; cases.
Qed.

Lemma add_success_email e p q w :
  status (post_api_cart_add (AddBody.mk (Some e) (Some p) q) w).1 = 200 → e ≠ "".
Proof. by destruct e. Qed.

Lemma add_each_onto e p qs : ∀ q w items,
  e ≠ "" →
  carts (db w) !! e = Some (items ++ [CartItem.mk p q]) →
  ¬ in_cart p items →
  Forall positive_quantity qs →
  Forall (λ r, status r = 200) (add_each e p qs w).1 →
  carts (db (add_each e p qs w).2) !! e
  = Some (items ++ [CartItem.mk p (sum_from q qs)]).
Proof.
  induction qs as [|q' qs IH]; intros q w items He Hcart Habs Hpos Hok; [done|].
  simpl in *.
  destruct (post_api_cart_add _ w) as [r w1] eqn:E1.
  destruct (add_each e p qs w1) as [rs w2] eqn:E2. simpl in *.
  apply Forall_cons in Hpos as [Hq Hpos], Hok as [Hr Hok].
  pose proof (add_success e p q' w He (positive_truthy _ Hq)
                (positive_not_le_zero _ Hq)) as Hadd.
  simpl in Hadd. rewrite E1 in Hadd. specialize (Hadd Hr). simpl in Hadd.
  rewrite Hcart in Hadd. simpl in Hadd. rewrite add_item_last in Hadd by done.
  specialize (IH (q + q')%float w1 items He).
  rewrite E2 in IH. apply IH; try done.
  by rewrite Hadd, lookup_insert_eq.
Qed.

(** C3. For every user email and product, [N >= 1] successful add requests
    with positive quantities [q1 .. qN], starting from a cart (or no cart)
    in which the product is absent, leave a cart holding the earlier line
    items followed by one line for the product with quantity
    [q1 + ... + qN]: exactly one line item refers to the product. *)
Theorem repeated_adds_accumulate e p q1 qs w :
  ¬ in_cart p (default [] (carts (db w) !! e)) →
  Forall positive_quantity (q1 :: qs) →
  Forall (λ r, status r = 200) (add_each e p (q1 :: qs) w).1 →
  let items := default [] (carts (db w) !! e) in
  let line := CartItem.mk p (sum_from q1 qs) in
  carts (db (add_each e p (q1 :: qs) w).2) !! e = Some (items ++ [line])
  ∧ List.filter (refers_to p) (items ++ [line]) = [line].
Proof.
  intros Habs Hpos Hok items line. split.
  - simpl in *.
    destruct (post_api_cart_add _ w) as [r w1] eqn:E1.
    destruct (add_each e p qs w1) as [rs w2] eqn:E2. simpl in *.
    apply Forall_cons in Hpos as [Hq Hpos], Hok as [Hr Hok].
    assert (e ≠ "") as He.
    { apply (add_success_email e p (Some q1) w). by rewrite E1. }
    pose proof (add_success e p q1 w He (positive_truthy _ Hq)
                  (positive_not_le_zero _ Hq)) as Hadd.
    simpl in Hadd. rewrite E1 in Hadd. specialize (Hadd Hr). simpl in Hadd.
    rewrite add_item_absent in Hadd by done.
    pose proof (add_each_onto e p qs q1 w1 items He) as Hrest.
    rewrite E2 in Hrest. apply Hrest; try done.
    by rewrite Hadd, lookup_insert_eq.
  - rewrite List.filter_app. simpl.
    unfold refers_to at 2, ObjectId_equals. simpl.
    rewrite bool_decide_eq_true_2 by done.
    replace (List.filter (refers_to p) items) with (@nil CartItem.t); [done|].
    symmetry. apply findIndex_None in Habs. fold items in Habs.
    clear -Habs. induction items as [|i items IH]; simpl in *; [done|].
    destruct (refers_to p i); [done|]. apply IH.
    by destruct (findIndex _ items).
Qed.

(** The specification's own example, run: 2, then 3, then 4 of a product
    that is not yet in the cart. *)
Lemma repeated_adds_accumulate_witness :
  carts (db (add_each "alice@shop.test" 7 [2; 3; 4]%float (mkWorld shop [])).2)
    !! "alice@shop.test"
  = Some (alice_cart ++ [CartItem.mk 7 9])
  ∧ List.filter (refers_to 7) (alice_cart ++ [CartItem.mk 7 9])
    = [CartItem.mk 7 9].
Proof.
  apply (repeated_adds_accumulate "alice@shop.test" 7 2 [3; 4]%float
           (mkWorld shop [])).
  - vm_compute. by intros ?%list_elem_of_In; simpl in *; intuition.
  - by repeat constructor.
  - by repeat constructor.
Defined.

(** ** The cart invariant *)

Lemma validate_cart_quantities e items :
  validate_cart (Cart.mk e items) = true →
  Forall (λ item, (1 <=? CartItem.quantity item)%float = true) items.
Proof.
  unfold validate_cart, min_ok. simpl. intros [_ H]%andb_prop.
  apply Is_true_true, forallb_True in H.
  eapply Forall_impl; [exact H|]. intros item. apply Is_true_true.
Qed.

Lemma ids_alter (f : CartItem.t → CartItem.t) (i : nat) (items : list CartItem.t) :
  (∀ item, CartItem.productId (f item) = CartItem.productId item) →
  CartItem.productId <$> alter f i items = CartItem.productId <$> items.
Proof.
  intros Hf. rewrite (list_fmap_alter _ f id) by (apply Forall_forall; intros; apply Hf).
  by apply list_alter_id.
Qed.

Lemma NoDup_ids_snoc p q (items : list CartItem.t) :
  findIndex (refers_to p) items = None →
  NoDup (CartItem.productId <$> items) →
  NoDup (CartItem.productId <$> items ++ [CartItem.mk p q]).
Proof.
  intros Habs%findIndex_None Hnd. rewrite fmap_app. simpl.
  apply NoDup_app. split_and!; [done| |apply NoDup_singleton].
  intros x Hx ->%list_elem_of_singleton. by apply Habs.
Qed.

Lemma NoDup_ids_delete (i : nat) (items : list CartItem.t) :
  NoDup (CartItem.productId <$> items) →
  NoDup (CartItem.productId <$> delete i items).
Proof.
  intros H. rewrite list_fmap_delete.
  eapply sublist_NoDup; [exact H | apply sublist_delete].
Qed.

Lemma filter_sublist {A} (f : A → bool) (l : list A) :
  List.filter f l `sublist_of` l.
Proof.
  induction l as [|x l IH]; simpl; [done|].
  destruct (f x); by constructor.
Qed.

Lemma NoDup_ids_filter f (items : list CartItem.t) :
  NoDup (CartItem.productId <$> items) →
  NoDup (CartItem.productId <$> List.filter f items).
Proof.
  intros H. eapply sublist_NoDup; [exact H|].
  apply fmap_sublist, filter_sublist.
Qed.

Lemma cart_write_ok d d' :
  cart_write (carts d) (carts d') → db_ok d → db_ok d'.
Proof.
  unfold db_ok. intros [-> | (e & items & -> & Hv & Hnd)] Hok; [done|].
  apply map_Forall_insert_2; [|done]. split.
  - by eapply validate_cart_quantities.
  - apply Hnd. destruct (carts d !! e) as [old|] eqn:E; simpl.
    + by apply (Hok e old E).
    + constructor.
Qed.

Ltac no_write := by left.
Ltac one_write tac :=
  right; eexists _, _; split; [reflexivity|]; split; [done|]; simpl; tac.

Lemma add_cart_write body w :
  cart_write (carts (db w)) (carts (db (post_api_cart_add body w).2)).
Proof.
  destruct body as [e p q]. unfold post_api_cart_add. simpl.
  destruct (truthy_string e) as [userEmail|]; [|no_write].
  destruct p as [productId|]; [|no_write].
  destruct (_ <=? 0)%float; [no_write|]. run.
  destruct w as [d [|[] fl]]; simpl; try no_write.
  all: destruct (carts d !! userEmail) as [items|] eqn:E; simpl.
  all: cases; try no_write.
  all: one_write ltac:(rewrite ?E; simpl;
         first [ by apply NoDup_ids_snoc
               | by rewrite ids_alter
               | intros _; apply NoDup_singleton ]).
Qed.

Lemma remove_cart_write body w :
  cart_write (carts (db w)) (carts (db (post_api_cart_remove body w).2)).
Proof.
  destruct body as [e p]. unfold post_api_cart_remove. simpl.
  destruct (truthy_string e) as [userEmail|]; [|no_write].
  destruct p as [productId|]; [|no_write]. run.
  destruct w as [d [|[] fl]]; simpl; try no_write.
  all: destruct (carts d !! userEmail) as [items|] eqn:E; simpl; try no_write.
  all: cases; try no_write.
  all: one_write ltac:(rewrite ?E; simpl; apply NoDup_ids_filter).
Qed.

Lemma update_cart_write body w :
  cart_write (carts (db w)) (carts (db (post_api_cart_update body w).2)).
Proof.
  destruct body as [e p q]. unfold post_api_cart_update. simpl.
  destruct (truthy_string e) as [userEmail|]; [|no_write].
  destruct p as [productId|]; [|no_write].
  destruct q as [quantity|]; [|no_write]. run.
  destruct w as [d [|[] fl]]; simpl; try no_write.
  all: destruct (carts d !! userEmail) as [items|] eqn:E; simpl; try no_write.
  all: destruct (findIndex _ items) as [itemIndex|]; simpl; try no_write.
  all: destruct (quantity <=? 0)%float; cases; try no_write.
  all: one_write ltac:(rewrite ?E; simpl;
         first [ apply NoDup_ids_delete | by rewrite ids_alter ]).
Qed.

Lemma clear_cart_write body w :
  cart_write (carts (db w)) (carts (db (post_api_cart_clear body w).2)).
Proof.
  destruct body as [e]. unfold post_api_cart_clear. simpl.
  destruct (truthy_string e) as [userEmail|]; [|no_write]. run.
  destruct w as [d [|[] fl]]; simpl; try no_write.
  all: destruct (carts d !! userEmail) as [items|] eqn:E; simpl.
  all: cases; try no_write.
  all: one_write ltac:(intros _; constructor).
Qed.

(** ** POST /api/orders *)

Arguments populate : simpl never.
Arguments map_order_items : simpl never.
Arguments resolve : simpl never.
Arguments fresh : simpl never.

(** The [map] callback of the checkout, item by item: it throws on the first
    dangling reference, and otherwise yields the snapshots and the running
    total. *)
Lemma map_order_items_resolve d items : ∀ totalAmount,
  map_order_items (populate d items) totalAmount
  = match resolve d items with
    | Some lines =>
        Val (order_snapshots lines,
             fold_left PrimFloat.add
               ((λ line, (line.2 * Product.price line.1.2)%float) <$> lines)
               totalAmount)
    | None => Raise TypeError
    end.
Proof.
  induction items as [|item items IH]; intros totalAmount; [done|].
  unfold populate, map_order_items, resolve. simpl.
  fold (populate d items). fold map_order_items. fold (resolve d items).
  destruct (products d !! CartItem.productId item) as [product|]; simpl; [|done].
  rewrite IH. destruct (resolve d items) as [lines|]; simpl; [|done].
  by rewrite (float_mul_comm (CartItem.quantity item)).
Qed.

Lemma resolve_dangling d items :
  (∃ item, item ∈ items ∧ products d !! CartItem.productId item = None) →
  resolve d items = None.
Proof.
  intros (item & Hin & Hnone).
  induction items as [|i items IH]; [by apply not_elem_of_nil in Hin|].
  unfold resolve. simpl. fold (resolve d items).
  apply elem_of_cons in Hin as [<- | Hin].
  - by rewrite Hnone.
  - rewrite IH by done. by destruct (products d !! CartItem.productId i).
Qed.

Lemma valid_checkout_fields req e addr pm :
  valid_checkout req e addr pm →
  ∃ a, req = OrderBody.mk (OrderBody.userEmail req) (Some a)
             (OrderBody.paymentMethod req)
       ∧ complete_address a = Some addr ∧ e ≠ "".
Proof.
  destruct req as [ue [a|] p]; intros (He & Ha & Hp); simpl in *; [|done].
  exists a. split_and!; try done. by apply truthy_string_inv in He as [_ ?].
Qed.

Lemma validate_empty_cart e : e ≠ "" → validate_cart (Cart.mk e []) = true.
Proof. by destruct e. Qed.

(** The checkout of a syntactically valid request, decision by decision. *)
Lemma checkout_run req fl d e addr pm :
  valid_checkout req e addr pm →
  serve (post_api_orders req) fl d
  = let failed := json 500 (Message "Failed to create order") in
    let empty := json 400 (Message "Cart is empty") in
    if rejects fl 0 then (failed, d)
    else match carts d !! e with
    | None | Some [] => (empty, d)
    | Some items =>
        match resolve d items with
        | None => (failed, d)
        | Some lines =>
            let order :=
              Order.mk e (order_snapshots lines) (order_total lines) "pending"
                addr pm (now d) in
            let _id := fresh (dom (orders d)) in
            let d1 := set_orders <[_id := order]> d in
            if negb (validate_order order) || rejects fl 1 then (failed, d)
            else if rejects fl 2 then (failed, d1)
            else (json 201 (Placed "Order placed successfully" (_id, order)),
                  set_carts <[e := []]> d1)
        end
    end.
Proof.
  intros Hv. destruct (valid_checkout_fields _ _ _ _ Hv) as (a & -> & Ha & He).
  destruct Hv as (Hue & _ & Hpm). simpl in *.
  unfold serve, post_api_orders, rejects. simpl. rewrite Hue, Hpm, Ha. run.
  destruct fl as [|[] [|[] [|[] fl]]]; simpl; try done.
  all: destruct (carts d !! e) as [[|item items]|]; simpl; try done.
  all: rewrite map_order_items_resolve.
  all: destruct (resolve d (item :: items)) as [lines|]; simpl; try done.
  all: fold (sum ((λ line, (line.2 * Product.price line.1.2)%float) <$> lines)).
  all: fold (order_total lines).
  all: destruct (validate_order _); simpl; try done.
  all: by rewrite ?(validate_empty_cart e He).
Qed.

(** A request that is not syntactically valid is refused before the cart is
    read. *)
Lemma checkout_request req :
  (∃ e addr pm, valid_checkout req e addr pm)
  ∨ ((∀ e addr pm, ¬ valid_checkout req e addr pm)
     ∧ ∀ fl d, ∃ m, serve (post_api_orders req) fl d = (json 400 (Message m), d)).
Proof.
  destruct req as [ue a pm]. unfold valid_checkout, serve, post_api_orders. simpl.
  destruct (truthy_string ue) as [e|]; [|right; split; [by intros ? ? ? (? & ? & ?) | eauto]].
  destruct a as [a|]; [|right; split; [by intros ? ? ? (? & ? & ?) | eauto]].
  destruct (truthy_string pm) as [p|]; [|right; split; [by intros ? ? ? (? & ? & ?) | eauto]].
  simpl.
  destruct (complete_address a) as [addr|]; [|right; split; [by intros ? ? ? (? & ? & ?) | eauto]].
  left. by exists e, addr, p.
Qed.

Lemma fresh_order_id d : orders d !! fresh (dom (orders d)) = None.
Proof. apply not_elem_of_dom, is_fresh. Qed.





(** C4. For every checkout with a syntactically valid request, if no cart
    exists for the email or the cart has no item, the response is the
    validation error "Cart is empty" and the database is unchanged (in
    particular no order is created), provided the store answers the cart
    query. *)
Theorem checkout_empty_cart req fl d e addr pm :
  valid_checkout req e addr pm →
  carts d !! e = None ∨ carts d !! e = Some [] →
  rejects fl 0 = false →
  let out := serve (post_api_orders req) fl d in
  out.1 = json 400 (Message "Cart is empty")
  ∧ validation_error out.1
  ∧ orders out.2 = orders d
  ∧ out.2 = d.
Proof.
  intros Hv Hcart Hfl out. subst out.
  rewrite (checkout_run _ _ _ _ _ _ Hv), Hfl.
  by destruct Hcart as [-> | ->].
Qed.

Lemma checkout_empty_cart_witness :
  let req := OrderBody.mk (Some "root@shop.test") (Some home) (Some "card") in
  let out := serve (post_api_orders req) [] shop in
  out.1 = json 400 (Message "Cart is empty")
  ∧ validation_error out.1
  ∧ orders out.2 = orders shop
  ∧ out.2 = shop.
Proof.
  apply (checkout_empty_cart _ [] shop "root@shop.test" home_address "card").
  - by vm_compute.
  - left. by vm_compute.
  - done.
Defined.



Lemma unrecognized_payment_refused o :
  Order.paymentMethod o ∉ paymentMethods → validate_order o = false.
Proof.
  intros H. unfold validate_order, includes.
  rewrite (bool_decide_eq_false_2 _ H). apply andb_false_r.
Qed.

(** C7, as amended. For every checkout request whose payment method is
    present but not one of card, cash_on_delivery, upi: the request is
    rejected with status 400 or 500, never accepted, and the database (no
    order, same cart) is unchanged; the value itself is caught only by the
    order schema, so when the rest of the request is valid and the cart is
    not empty the response is the generic server error "Failed to create
    order" of the route, not a validation error. *)
Theorem checkout_unrecognized_payment req fl d pm :
  truthy_string (OrderBody.paymentMethod req) = Some pm →
  pm ∉ paymentMethods →
  let out := serve (post_api_orders req) fl d in
  out.2 = d
  ∧ (validation_error out.1 ∨ generic_server_error out.1)
  ∧ (∀ e addr items, valid_checkout req e addr pm →
       carts d !! e = Some items → items ≠ [] →
       out.1 = json 500 (Message "Failed to create order")).
Proof.
  intros Hpm Hnot out. subst out.
  destruct (checkout_request req) as [(e & addr & pm' & Hv) | Hbad].
  - assert (pm' = pm) as -> by (destruct Hv as (_ & _ & ?); congruence).
    rewrite (checkout_run _ _ _ _ _ _ Hv).
    assert (∀ lines, validate_order
              (Order.mk e (order_snapshots lines) (order_total lines) "pending"
                 addr pm (now d)) = false) as Hrefused
      by (intros; by apply unrecognized_payment_refused).
    destruct (rejects fl 0); simpl.
    { split_and!; [done | by right |]. done. }
    destruct (carts d !! e) as [[|item items]|] eqn:Hcart; simpl.
    + split_and!; [done | by left |]. intros e' ? ? Hv'.
      assert (e' = e) as -> by (destruct Hv, Hv'; congruence). congruence.
    + destruct (resolve d (item :: items)) as [lines|]; simpl;
        rewrite ?Hrefused; simpl; (split_and!; [done | by right | done]).
    + split_and!; [done | by left |]. intros e' ? ? Hv'.
      assert (e' = e) as -> by (destruct Hv, Hv'; congruence). congruence.
  - destruct Hbad as [Hno Hbad]. destruct (Hbad fl d) as [m ->]. simpl.
    split_and!; [done | by left |]. intros e addr items Hv.
    by destruct (Hno _ _ _ Hv).
Qed.

Lemma checkout_unrecognized_payment_witness :
  let out := serve (post_api_orders (checkout_by "bitcoin")) [] shop in
  out.2 = shop
  ∧ (validation_error out.1 ∨ generic_server_error out.1)
  ∧ (∀ e addr items, valid_checkout (checkout_by "bitcoin") e addr "bitcoin" →
       carts shop !! e = Some items → items ≠ [] →
       out.1 = json 500 (Message "Failed to create order")).
Proof.
  apply (checkout_unrecognized_payment (checkout_by "bitcoin") [] shop "bitcoin").
  - done.
  - unfold paymentMethods. rewrite !not_elem_of_cons. split_and!; try done.
    apply not_elem_of_nil.
Defined.

(** C7 as stated fails: with a valid email and address, a cart that is not
    empty and the payment method "bitcoin", the response is the generic
    server error (500), not a validation error (400). *)
Lemma unrecognized_payment_is_a_server_error :
  let out := serve (post_api_orders (checkout_by "bitcoin")) [] shop in
  truthy_string (OrderBody.paymentMethod (checkout_by "bitcoin")) = Some "bitcoin"
  ∧ ("bitcoin" ∉ paymentMethods)
  ∧ generic_server_error out.1
  ∧ ¬ validation_error out.1.
Proof.
  split_and!.
  - done.
  - unfold paymentMethods. rewrite !not_elem_of_cons. split_and!; try done.
    apply not_elem_of_nil.
  - by vm_compute.
  - by vm_compute.
Qed.

Lemma serve_snd route fl d : (serve route fl d).2 = db (route (mkWorld d fl)).2.
Proof. unfold serve. by destruct (route _). Qed.

Lemma checkout_cart_write req w :
  cart_write (carts (db w)) (carts (db (post_api_orders req w).2)).
Proof.
  destruct w as [d fl]. rewrite <- serve_snd. simpl.
  destruct (checkout_request req) as [(e & addr & pm & Hv) | [_ Hbad]].
  - rewrite (checkout_run _ _ _ _ _ _ Hv).
    assert (e ≠ "") as He
      by (destruct Hv as ((_ & ?)%truthy_string_inv & _); done).
    destruct (rejects fl 0); [by left|].
    destruct (carts d !! e) as [[|item items]|]; try by left.
    destruct (resolve d _); [|by left].
    simpl. destruct (negb _ || rejects fl 1)%bool; [by left|].
    destruct (rejects fl 2); [by left|].
    right. exists e, []. simpl. split_and!; try done.
    + by apply validate_empty_cart.
    + intros _. constructor.
  - destruct (Hbad fl d) as [m ->]. by left.
Qed.

Lemma not_in_cart_delete p i (items : list CartItem.t) item :
  NoDup (CartItem.productId <$> items) →
  items !! i = Some item → CartItem.productId item = p →
  ¬ in_cart p (delete i items).
Proof.
  unfold in_cart. intros Hnd Hi <-. rewrite list_fmap_delete.
  assert ((CartItem.productId <$> items) !! i = Some (CartItem.productId item))
    as Hi' by (by rewrite list_lookup_fmap, Hi).
  intros [j Hj]%list_elem_of_lookup.
  destruct (decide (j < i)) as [Hlt | Hge].
  - rewrite list_lookup_delete_lt in Hj by done.
    pose proof (NoDup_lookup _ _ _ _ Hnd Hi' Hj). lia.
  - rewrite list_lookup_delete_ge in Hj by lia.
    pose proof (NoDup_lookup _ _ _ _ Hnd Hi' Hj). lia.
Qed.

(** An update with a quantity at or below zero, on a healthy cart and a
    store that answers, removes the line item. *)
Lemma update_nonpositive_removes e p q items i w :
  e ≠ "" →
  carts (db w) !! e = Some items →
  cart_ok items →
  findIndex (refers_to p) items = Some i →
  (q <=? 0)%float = true →
  rejects (faults w) 0 || rejects (faults w) 1 = false →
  let out := post_api_cart_update (UpdateBody.mk (Some e) (Some p) (Some q)) w in
  out.1 = json 200 (Message "Cart updated successfully")
  ∧ carts (db out.2) = <[e := delete i items]> (carts (db w))
  ∧ ¬ in_cart p (delete i items).
Proof.
  intros He Hcart [Hq Hnd] Hi Hle Hfl out. subst out.
  assert (validate_cart (Cart.mk e (delete i items)) = true) as Hv.
  { unfold validate_cart. simpl. destruct e; [done|]. simpl.
    apply Is_true_true, forallb_True, Forall_delete.
    eapply Forall_impl; [exact Hq|]. intros item. apply Is_true_true. }
  split_and!.
  3: { destruct (findIndex_Some _ _ _ Hi) as (item & ? & ?).
       by eapply not_in_cart_delete. }
  all: unfold post_api_cart_update; simpl.
  all: rewrite truthy_string_Some by done; run.
  all: destruct w as [d fl]; simpl in *.
  all: destruct fl as [|[] [|[] fl]]; simpl; try done.
  all: rewrite Hcart; simpl; rewrite Hi, Hle; simpl; by rewrite Hv.
Qed.

(** C5. Every cart operation (add, update quantity, remove, clear,
    checkout) preserves the cart invariant: in every cart, every quantity
    is at least 1 and no product is referenced twice, whatever the request
    and whichever store calls fail; and an update to a quantity at or below
    zero removes the line item of a cart that satisfies the invariant
    instead of storing that quantity. *)
Theorem cart_invariant_preserved w :
  db_ok (db w) →
  (∀ req, db_ok (db (post_api_cart_add req w).2))
  ∧ (∀ req, db_ok (db (post_api_cart_update req w).2))
  ∧ (∀ req, db_ok (db (post_api_cart_remove req w).2))
  ∧ (∀ req, db_ok (db (post_api_cart_clear req w).2))
  ∧ (∀ req, db_ok (db (post_api_orders req w).2))
  ∧ (∀ e p q items i,
       e ≠ "" → carts (db w) !! e = Some items →
       findIndex (refers_to p) items = Some i →
       (q <=? 0)%float = true →
       rejects (faults w) 0 || rejects (faults w) 1 = false →
       let out :=
         post_api_cart_update (UpdateBody.mk (Some e) (Some p) (Some q)) w in
       out.1 = json 200 (Message "Cart updated successfully")
       ∧ carts (db out.2) = <[e := delete i items]> (carts (db w))
       ∧ ¬ in_cart p (delete i items)).
Proof.
  intros Hok. split_and!; intros.
  - eapply cart_write_ok; [apply add_cart_write | done].
  - eapply cart_write_ok; [apply update_cart_write | done].
  - eapply cart_write_ok; [apply remove_cart_write | done].
  - eapply cart_write_ok; [apply clear_cart_write | done].
  - eapply cart_write_ok; [apply checkout_cart_write | done].
  - apply update_nonpositive_removes; try done. by eapply (Hok e).
Qed.

Lemma shop_ok : db_ok shop.
Proof.
  unfold db_ok, shop. simpl. apply map_Forall_singleton. split.
  - by repeat constructor.
  - simpl. apply NoDup_cons. split; [|apply NoDup_singleton].
    by intros ?%list_elem_of_singleton.
Qed.

Lemma cart_invariant_preserved_witness :
  (∀ req, db_ok (db (post_api_cart_add req (mkWorld shop [])).2))
  ∧ (∀ req, db_ok (db (post_api_cart_update req (mkWorld shop [])).2))
  ∧ (∀ req, db_ok (db (post_api_cart_remove req (mkWorld shop [])).2))
  ∧ (∀ req, db_ok (db (post_api_cart_clear req (mkWorld shop [])).2))
  ∧ (∀ req, db_ok (db (post_api_orders req (mkWorld shop [])).2))
  ∧ (∀ e p q items i,
       e ≠ "" → carts shop !! e = Some items →
       findIndex (refers_to p) items = Some i →
       (q <=? 0)%float = true →
       rejects [] 0 || rejects [] 1 = false →
       let out :=
         post_api_cart_update (UpdateBody.mk (Some e) (Some p) (Some q))
           (mkWorld shop []) in
       out.1 = json 200 (Message "Cart updated successfully")
       ∧ carts (db out.2) = <[e := delete i items]> (carts shop)
       ∧ ¬ in_cart p (delete i items)).
Proof. apply (cart_invariant_preserved (mkWorld shop [])), shop_ok. Defined.

(** Setting the quantity of X to 0 in Alice's cart leaves only Y. *)
Lemma update_to_zero_example :
  let req := UpdateBody.mk (Some "alice@shop.test") (Some 1%positive) (Some 0%float) in
  let out := serve (post_api_cart_update req) [] shop in
  out.1 = json 200 (Message "Cart updated successfully")
  ∧ carts out.2 !! "alice@shop.test" = Some [CartItem.mk 2 1].
Proof. by vm_compute. Qed.

(** ** The quantity of an add request *)

(** An omitted quantity is the quantity 1. *)
Lemma add_quantity_defaults_to_1 e p w :
  post_api_cart_add (AddBody.mk e p None) w
  = post_api_cart_add (AddBody.mk e p (Some 1%float)) w.
Proof. done. Qed.

(** A negative quantity is refused and nothing is written. *)
Lemma add_negative_quantity_rejected e p q w :
  truthy_string e ≠ None → p ≠ None → (q <? 0)%float = true →
  post_api_cart_add (AddBody.mk e p (Some q)) w
  = (json 400 (Message "Quantity must be greater than 0"), w).
Proof.
  intros He Hp Hq. unfold post_api_cart_add. simpl.
  destruct (truthy_string e); [|done]. destruct p; [|done].
  by rewrite (negative_truthy _ Hq), (negative_le_zero _ Hq).
Qed.

(** A supplied quantity of 0 (or -0, or NaN) is taken for an omitted one. *)
Lemma add_falsy_quantity_is_omitted e p q w :
  truthy_number q = false →
  post_api_cart_add (AddBody.mk e p (Some q)) w
  = post_api_cart_add (AddBody.mk e p None) w.
Proof. intros Hq. unfold post_api_cart_add. simpl. by rewrite Hq. Qed.

(** A supplied quantity that is not greater than 0 is rejected exactly when
    it is negative; a zero (or NaN) is served as if no quantity was sent. *)
Lemma add_nonpositive_quantity e p q w :
  truthy_string e ≠ None → p ≠ None → (q <=? 0)%float = true →
  let supplied := post_api_cart_add (AddBody.mk e p (Some q)) w in
  ((q <? 0)%float = true
   ∧ supplied = (json 400 (Message "Quantity must be greater than 0"), w))
  ∨ (truthy_number q = false
     ∧ supplied = post_api_cart_add (AddBody.mk e p None) w).
Proof.
  intros He Hp [Hneg | Hfalsy]%le_zero_cases.
  - left. split; [done|]. by apply add_negative_quantity_rejected.
  - right. split; [done|]. by apply add_falsy_quantity_is_omitted.
Qed.

(** C6, the failing input. An add request that supplies the quantity 0 is
    not rejected: it succeeds and raises the quantity of the line by 1. *)
Theorem add_zero_quantity_is_accepted :
  let req := AddBody.mk (Some "alice@shop.test") (Some 1%positive) (Some 0%float) in
  let out := serve (post_api_cart_add req) [] shop in
  (0 <=? 0)%float = true
  ∧ out.1 = json 200 (Message "Product added to cart successfully")
  ∧ carts shop !! "alice@shop.test" = Some [CartItem.mk 1 3; CartItem.mk 2 1]
  ∧ carts out.2 !! "alice@shop.test" = Some [CartItem.mk 1 4; CartItem.mk 2 1].
Proof. by vm_compute. Qed.

(** ** Admin *)

Arguments not_admin : simpl never.
Arguments summaries : simpl never.

(** The inline admin verification, decision by decision. *)
Lemma admin_verification_run email operation handler fl d :
  serve (try_catch (admin_verification email operation) handler) fl d
  = if rejects fl 0 then (handler StoreFailure, d)
    else if not_admin (account d email) then
      (json 403 (Message "Admin access required"), d)
    else serve (try_catch operation handler) (tail fl) d.
Proof.
  unfold serve, admin_verification, account, rejects. run.
  destruct fl as [|[] fl]; simpl; try done.
  all: by destruct (not_admin _).
Qed.

(** PUT /api/admin/orders/:id, decision by decision. *)
Lemma put_order_status_run id req fl d :
  serve (put_api_admin_orders_id id req) fl d
  = let failed := json 500 (Message "Failed to update order") in
    let invalid := json 400 (Message "Invalid order status") in
    match id with
    | None => (json 400 (Message "Invalid order ID format"), d)
    | Some id =>
        if rejects fl 0 then (failed, d)
        else if not_admin (account d (StatusBody.email req)) then
          (json 403 (Message "Admin access required"), d)
        else match StatusBody.status req with
        | None => (invalid, d)
        | Some status =>
            if negb (includes validStatuses status) then (invalid, d)
            else if rejects fl 1 then (failed, d)
            else match orders d !! id with
            | None => (json 404 (Message "Order not found"), d)
            | Some o =>
                (json 200 (Updated "Order status updated successfully"
                             (id, set_status status o)
                             (summaries d (Order.items o))),
                 set_orders <[id := set_status status o]> d)
            end
        end
    end.
Proof.
  unfold put_api_admin_orders_id. destruct id as [id|]; [|done].
  rewrite admin_verification_run. unfold server_error.
  destruct (rejects fl 0) eqn:H0; [done|].
  destruct (not_admin _); [done|].
  destruct (StatusBody.status req) as [status|]; [|done].
  unfold serve, rejects in *. run.
  destruct (includes validStatuses status); simpl; [|done].
  destruct fl as [|b [|[] fl]]; simpl; try done.
  all: by destruct (orders d !! id).
Qed.

(** The [checkAdmin] middleware tells an unknown account (404) from an
    account without the admin role (403); no route is registered with it. *)
Lemma checkAdmin_gate email e fl d :
  truthy_string email = Some e →
  rejects fl 0 = false →
  let out := checkAdmin email (mkWorld d fl) in
  db out.2 = d
  ∧ match users d !! toLowerCase e with
    | None => out.1 = inl (json 404 (Message "User not found"))
    | Some user =>
        if bool_decide (User.role user = "admin") then out.1 = inr user
        else out.1 = inl (json 403 (Message "Admin access required"))
    end.
Proof.
  intros He Hfl. unfold checkAdmin, rejects in *. rewrite He. run.
  destruct fl as [|[] fl]; simpl in *; try done.
  all: destruct (users d !! toLowerCase e) as [user|]; simpl; try done.
  all: by destruct (bool_decide (User.role user = "admin")).
Qed.




(** C10. For every order status update that succeeds (status 200), the
    stored order differs from the one before in its status only: items
    (snapshot names and prices included), totalAmount, deliveryAddress,
    paymentMethod, userEmail and orderDate are the same; every other order
    and every other collection is untouched. *)
Theorem status_update_frame id req fl d :
  let out := serve (put_api_admin_orders_id id req) fl d in
  status out.1 = 200 →
  ∃ _id status before after,
    id = Some _id ∧ StatusBody.status req = Some status
    ∧ orders d !! _id = Some before
    ∧ orders out.2 !! _id = Some after
    ∧ Order.status after = status
    ∧ Order.items after = Order.items before
    ∧ Order.totalAmount after = Order.totalAmount before
    ∧ Order.deliveryAddress after = Order.deliveryAddress before
    ∧ Order.paymentMethod after = Order.paymentMethod before
    ∧ Order.userEmail after = Order.userEmail before
    ∧ Order.orderDate after = Order.orderDate before
    ∧ (∀ other, other ≠ _id → orders out.2 !! other = orders d !! other)
    ∧ products out.2 = products d ∧ users out.2 = users d
    ∧ carts out.2 = carts d ∧ now out.2 = now d.
Proof.
  intros out. subst out. rewrite put_order_status_run.
  destruct id as [_id|]; simpl; [|done].
  destruct (rejects fl 0); [done|].
  destruct (not_admin _); [done|].
  destruct (StatusBody.status req) as [status|]; [|done].
  destruct (negb _); [done|].
  destruct (rejects fl 1); [done|].
  destruct (orders d !! _id) as [before|] eqn:Hbefore; simpl; [|done].
  intros _. exists _id, status, before, (set_status status before).
  rewrite lookup_insert_eq. split_and!; try done.
  intros other Hother. by rewrite lookup_insert_ne.
Qed.

(** The admin marks Alice's order as shipped. *)
Lemma status_update_frame_witness :
  let req := StatusBody.mk (Some "root@shop.test") (Some "shipped") in
  let out := serve (put_api_admin_orders_id (Some 1%positive) req) [] shop_with_order in
  ∃ _id status before after,
    Some 1%positive = Some _id ∧ StatusBody.status req = Some status
    ∧ orders shop_with_order !! _id = Some before
    ∧ orders out.2 !! _id = Some after
    ∧ Order.status after = status
    ∧ Order.items after = Order.items before
    ∧ Order.totalAmount after = Order.totalAmount before
    ∧ Order.deliveryAddress after = Order.deliveryAddress before
    ∧ Order.paymentMethod after = Order.paymentMethod before
    ∧ Order.userEmail after = Order.userEmail before
    ∧ Order.orderDate after = Order.orderDate before
    ∧ (∀ other, other ≠ _id → orders out.2 !! other = orders shop_with_order !! other)
    ∧ products out.2 = products shop_with_order
    ∧ users out.2 = users shop_with_order
    ∧ carts out.2 = carts shop_with_order
    ∧ now out.2 = now shop_with_order.
Proof.
  apply (status_update_frame (Some 1%positive)
           (StatusBody.mk (Some "root@shop.test") (Some "shipped")) []
           shop_with_order).
  by vm_compute.
Defined.

(** ** The routes on the shop *)

(** Checkout of Alice's cart: the order of 35.50 is stored and her cart is
    emptied. *)
Example checkout_example :
  serve (post_api_orders (checkout_by "upi")) [] shop
  = (json 201 (Placed "Order placed successfully" (1%positive, alice_order)),
     shop_with_order).
Proof. by vm_compute. Qed.

(** The window between the two writes of the checkout: when the store
    rejects the cart write, the order stays stored, the cart keeps its
    items and the caller is told that the checkout failed. *)
Example checkout_cart_write_rejected :
  let out := serve (post_api_orders (checkout_by "upi")) [false; false; true] shop in
  out.1 = json 500 (Message "Failed to create order")
  ∧ orders out.2 !! 1%positive = Some alice_order
  ∧ carts out.2 !! "alice@shop.test" = Some alice_cart.
Proof. by vm_compute. Qed.

(** Clearing a cart of two line items reports 2 and leaves none. *)
Example clear_example :
  let out := serve (post_api_cart_clear (ClearBody.mk (Some "alice@shop.test"))) [] shop in
  out.1 = json 200 (Cleared "Cart cleared successfully" 2 (Some 0))
  ∧ carts out.2 !! "alice@shop.test" = Some [].
Proof. by vm_compute. Qed.

(** Removing a product that is not in the cart is a 404 and writes nothing. *)
Example remove_absent_example :
  serve (post_api_cart_remove (RemoveBody.mk (Some "alice@shop.test") (Some 9%positive)))
    [] shop
  = (json 404 (Message "Product not found in cart"), shop).
Proof. by vm_compute. Qed.

(** A quantity below 1 passes the route's own test and is refused by the
    cart schema on save. *)
Example add_half_example :
  serve (post_api_cart_add
           (AddBody.mk (Some "alice@shop.test") (Some 9%positive) (Some 0.5%float)))
    [] shop
  = (json 500 (Message "Failed to add product to cart"), shop).
Proof. by vm_compute. Qed.

(** [Math.round] sends a tie towards +infinity, and [round2] keeps two
    decimals. *)
Example Math_round_examples :
  Math_round 2.5 = 3%float ∧ Math_round (-2.5) = (-2)%float
  ∧ Math_round 3549.75 = 3550%float
  ∧ round2 35.5 = 35.5%float ∧ round2 0.375 = (38 / 100)%float.
Proof. by vm_compute. Qed.

(** * Further properties *)

(** ** The cart routes, one request at a time *)

Ltac quiet := by left.
Ltac wrote := right; split; [done|]; eexists _, _; split; [done|]; done.

Lemma add_effect req w :
  one_cart_effect (AddBody.userEmail req) w (post_api_cart_add req w).
Proof.
  destruct req as [e p q]. unfold one_cart_effect, post_api_cart_add. simpl.
  destruct (truthy_string e) as [userEmail|]; [|quiet].
  destruct p as [productId|]; [|quiet].
  destruct (_ <=? 0)%float; [quiet|]. run.
  destruct w as [d [|[] fl]]; simpl; try quiet.
  all: destruct (carts d !! userEmail) as [items|]; simpl.
  all: cases; first [quiet | wrote].
Qed.

Lemma update_effect req w :
  one_cart_effect (UpdateBody.userEmail req) w (post_api_cart_update req w).
Proof.
  destruct req as [e p q]. unfold one_cart_effect, post_api_cart_update. simpl.
  destruct (truthy_string e) as [userEmail|]; [|quiet].
  destruct p as [productId|]; [|quiet].
  destruct q as [quantity|]; [|quiet]. run.
  destruct w as [d [|[] fl]]; simpl; try quiet.
  all: destruct (carts d !! userEmail) as [items|]; simpl; try quiet.
  all: destruct (findIndex _ items) as [itemIndex|]; simpl; try quiet.
  all: destruct (quantity <=? 0)%float; cases; first [quiet | wrote].
Qed.

Lemma remove_effect req w :
  one_cart_effect (RemoveBody.userEmail req) w (post_api_cart_remove req w).
Proof.
  destruct req as [e p]. unfold one_cart_effect, post_api_cart_remove. simpl.
  destruct (truthy_string e) as [userEmail|]; [|quiet].
  destruct p as [productId|]; [|quiet]. run.
  destruct w as [d [|[] fl]]; simpl; try quiet.
  all: destruct (carts d !! userEmail) as [items|]; simpl; try quiet.
  all: cases; first [quiet | wrote].
Qed.

Lemma clear_effect req w :
  one_cart_effect (ClearBody.userEmail req) w (post_api_cart_clear req w).
Proof.
  destruct req as [e]. unfold one_cart_effect, post_api_cart_clear. simpl.
  destruct (truthy_string e) as [userEmail|]; [|quiet]. run.
  destruct w as [d [|[] fl]]; simpl; try quiet.
  all: destruct (carts d !! userEmail) as [items|]; simpl.
  all: cases; first [quiet | wrote].
Qed.

Lemma cart_route_effect request w :
  one_cart_effect (cart_owner request) w (cart_route request w).
Proof.
  destruct request; simpl;
    [apply add_effect | apply update_effect | apply remove_effect | apply clear_effect].
Qed.

(** X1. A cart route (add, update, remove, clear) writes all or nothing:
    whatever the request and whichever store calls fail, an answer other
    than the success 200 leaves the database exactly as it was, and a
    success has replaced one cart. *)
Theorem cart_route_all_or_nothing request w :
  let out := cart_route request w in
  (status out.1 ≠ 200 → db out.2 = db w)
  ∧ (status out.1 = 200 →
     ∃ e items, truthy_string (cart_owner request) = Some e
                ∧ carts (db out.2) = <[e := items]> (carts (db w))).
Proof.
  intros out. subst out.
  destruct (cart_route_effect request w) as [[Hs Hd] | [Hs (e & items & He & Hd)]].
  - split; [done|]. by intros.
  - split; [by intros|]. intros _. exists e, items. by rewrite Hd.
Qed.

(** X2. A cart route touches one cart only: the products, the accounts,
    the orders and the clock are never changed, and neither is the cart of
    any user other than the one named in the request. *)
Theorem cart_route_frame request w :
  let out := cart_route request w in
  products (db out.2) = products (db w)
  ∧ users (db out.2) = users (db w)
  ∧ orders (db out.2) = orders (db w)
  ∧ now (db out.2) = now (db w)
  ∧ ∀ other, truthy_string (cart_owner request) ≠ Some other →
             carts (db out.2) !! other = carts (db w) !! other.
Proof.
  intros out. subst out.
  destruct (cart_route_effect request w) as [[_ ->] | [_ (e & items & He & ->)]].
  - by split_and!.
  - split_and!; try done. intros other Hother. simpl.
    rewrite lookup_insert_ne; [done|]. congruence.
Qed.

(** X7. A cart request that lacks a field its route needs (the user email,
    the product id, or the quantity of an update) is answered 400 before
    the store is asked anything: nothing is read, nothing is written. *)
Theorem cart_route_requires_fields request w :
  has_required_fields request = false →
  let out := cart_route request w in
  validation_error out.1 ∧ out.2 = w.
Proof.
  destruct request as [[e p q] | [e p q] | [e p] | [e]]; simpl;
    unfold post_api_cart_add, post_api_cart_update, post_api_cart_remove,
      post_api_cart_clear, validation_error; simpl.
  all: destruct (truthy_string e) as [userEmail|]; simpl;
    rewrite ?bool_decide_eq_true_2 by eauto; simpl; try done.
  all: destruct p as [productId|]; simpl;
    rewrite ?bool_decide_eq_true_2 by eauto; simpl; try done.
  all: destruct q as [quantity|]; simpl;
    rewrite ?bool_decide_eq_true_2 by eauto; simpl; try done.
Qed.

Lemma cart_route_requires_fields_witness :
  let request := Update (UpdateBody.mk (Some "alice@shop.test") (Some 1%positive) None) in
  let out := cart_route request (mkWorld shop [true]) in
  validation_error out.1 ∧ out.2 = mkWorld shop [true].
Proof.
  apply (cart_route_requires_fields
           (Update (UpdateBody.mk (Some "alice@shop.test") (Some 1%positive) None))).
  done.
Defined.

(** ** Lines of a cart *)

Lemma one_le_positive q : (1 <=? q)%float = true → (0 <? q)%float = true.
Proof.
  rewrite FloatAxioms.ltb_spec, FloatAxioms.leb_spec. unfold SFltb, SFleb.
  change (Prim2SF 0) with (S754_zero false).
  change (Prim2SF 1) with (S754_finite false 4503599627370496 (-52)).
  by destruct (Prim2SF q) as [s|s| |s m e]; try destruct s.
Qed.

Lemma validate_cart_Forall e items :
  e ≠ "" →
  Forall (λ item, (1 <=? CartItem.quantity item)%float = true) items →
  validate_cart (Cart.mk e items) = true.
Proof.
  intros He Hq. unfold validate_cart, min_ok. simpl. destruct e; [done|]. simpl.
  apply Is_true_true, forallb_True.
  eapply Forall_impl; [exact Hq|]. intros item. apply Is_true_true.
Qed.

Lemma filter_absent p (items : list CartItem.t) :
  ¬ in_cart p items →
  List.filter (λ item, negb (refers_to p item)) items = items.
Proof.
  unfold in_cart, refers_to, ObjectId_equals.
  induction items as [|item items IH]; simpl; [done|].
  rewrite not_elem_of_cons. intros [Hne Hrest].
  rewrite bool_decide_eq_false_2 by done. simpl. by rewrite IH.
Qed.

Lemma filter_gone p (items : list CartItem.t) :
  ¬ in_cart p (List.filter (λ item, negb (refers_to p item)) items).
Proof.
  unfold in_cart, refers_to, ObjectId_equals.
  induction items as [|item items IH]; simpl; [apply not_elem_of_nil|].
  case_bool_decide; simpl; [done|].
  rewrite not_elem_of_cons. split; [congruence | done].
Qed.

Lemma filter_present_length p (items : list CartItem.t) :
  NoDup (CartItem.productId <$> items) → in_cart p items →
  S (length (List.filter (λ item, negb (refers_to p item)) items)) = length items.
Proof.
  unfold in_cart. induction items as [|item items IH]; simpl.
  - by intros _ ?%not_elem_of_nil.
  - intros [Hnotin Hnd]%NoDup_cons [Heq | Hin]%elem_of_cons.
    + unfold refers_to at 1, ObjectId_equals.
      rewrite bool_decide_eq_true_2 by done. simpl.
      rewrite filter_absent; [done|]. unfold in_cart. by rewrite Heq.
    + unfold refers_to at 1, ObjectId_equals.
      rewrite bool_decide_eq_false_2; [simpl; by rewrite IH|].
      intros Heq. apply Hnotin. by rewrite Heq.
Qed.

Lemma filter_keeps p (items : list CartItem.t) item :
  item ∈ items → CartItem.productId item ≠ p →
  item ∈ List.filter (λ item, negb (refers_to p item)) items.
Proof.
  intros Hin Hne. apply list_elem_of_In, List.filter_In. split.
  - by apply list_elem_of_In.
  - unfold refers_to, ObjectId_equals. by rewrite bool_decide_eq_false_2.
Qed.

Lemma Forall_filter_quantities f (items : list CartItem.t) :
  Forall (λ item, (1 <=? CartItem.quantity item)%float = true) items →
  Forall (λ item, (1 <=? CartItem.quantity item)%float = true) (List.filter f items).
Proof.
  rewrite !Forall_forall. intros H item [Hin _]%list_elem_of_In%List.filter_In.
  by apply H, list_elem_of_In.
Qed.

(** The cart routes on a request with its fields present, decision by
    decision. *)
Lemma remove_run e p fl d :
  e ≠ "" →
  serve (post_api_cart_remove (RemoveBody.mk (Some e) (Some p))) fl d
  = let failed := json 500 (Message "Failed to remove product from cart") in
    if rejects fl 0 then (failed, d)
    else match carts d !! e with
    | None => (json 404 (Message "Cart not found"), d)
    | Some items =>
        let kept := List.filter (λ item, negb (refers_to p item)) items in
        if bool_decide (length kept = length items) then
          (json 404 (Message "Product not found in cart"), d)
        else if negb (validate_cart (Cart.mk e kept)) || rejects fl 1 then
          (failed, d)
        else (json 200 (Message "Product removed from cart successfully"),
              set_carts <[e := kept]> d)
    end.
Proof.
  intros He. unfold serve, post_api_cart_remove, rejects. simpl.
  rewrite truthy_string_Some by done. run.
  destruct fl as [|[] [|[] fl]]; simpl; try done.
  all: destruct (carts d !! e) as [items|]; simpl; try done.
  all: destruct (bool_decide (_ = _)); simpl; try done.
  all: by destruct (validate_cart _).
Qed.

Lemma update_run e p q fl d :
  e ≠ "" →
  serve (post_api_cart_update (UpdateBody.mk (Some e) (Some p) (Some q))) fl d
  = let failed := json 500 (Message "Failed to update cart") in
    if rejects fl 0 then (failed, d)
    else match carts d !! e with
    | None => (json 404 (Message "Cart not found"), d)
    | Some items =>
        match findIndex (refers_to p) items with
        | None => (json 404 (Message "Product not found in cart"), d)
        | Some i =>
            let updated :=
              if (q <=? 0)%float then delete i items
              else alter (set_quantity q) i items in
            if negb (validate_cart (Cart.mk e updated)) || rejects fl 1 then
              (failed, d)
            else (json 200 (Message "Cart updated successfully"),
                  set_carts <[e := updated]> d)
        end
    end.
Proof.
  intros He. unfold serve, post_api_cart_update, rejects. simpl.
  rewrite truthy_string_Some by done. run.
  destruct fl as [|[] [|[] fl]]; simpl; try done.
  all: destruct (carts d !! e) as [items|]; simpl; try done.
  all: destruct (findIndex _ items) as [i|]; simpl; try done.
  all: by destruct (validate_cart _).
Qed.

Lemma clear_run e fl d :
  e ≠ "" →
  serve (post_api_cart_clear (ClearBody.mk (Some e))) fl d
  = if rejects fl 0 || rejects fl 1 then
      (json 500 (MessageError "Failed to clear cart" StoreFailure), d)
    else
      (json 200
         match carts d !! e with
         | None => Cleared "Cart not found, created empty cart" 0 None
         | Some items => Cleared "Cart cleared successfully" (length items) (Some 0)
         end,
       set_carts <[e := []]> d).
Proof.
  intros He. unfold serve, post_api_cart_clear, rejects. simpl.
  rewrite truthy_string_Some by done. run.
  destruct fl as [|[] [|[] fl]]; simpl; try done.
  all: destruct (carts d !! e) as [items|]; simpl; try done.
  all: by rewrite (validate_empty_cart e He).
Qed.

Lemma add_run e p q fl d :
  e ≠ "" → truthy_number q = true → (q <=? 0)%float = false →
  serve (post_api_cart_add (AddBody.mk (Some e) (Some p) (Some q))) fl d
  = let failed := json 500 (Message "Failed to add product to cart") in
    let items := add_item p q (default [] (carts d !! e)) in
    if rejects fl 0 then (failed, d)
    else if negb (validate_cart (Cart.mk e items)) || rejects fl 1 then (failed, d)
    else (json 200 (Message "Product added to cart successfully"),
          set_carts <[e := items]> d).
Proof.
  intros He Ht Hq. unfold serve, post_api_cart_add, rejects, add_item. simpl.
  rewrite truthy_string_Some, Ht, Hq by done. run.
  destruct fl as [|[] [|[] fl]]; simpl; try done.
  all: destruct (carts d !! e) as [items|]; simpl; cases.
Qed.


(** X3. Removing a product from a cart that satisfies the cart invariant,
    when the store answers: if the product is in the cart, the answer is
    200, exactly its one line is gone and every other line is kept; if it
    is not, the answer is 404 "Product not found in cart" and the database
    is unchanged. *)
Theorem remove_line e p items fl d :
  e ≠ "" →
  carts d !! e = Some items →
  cart_ok items →
  rejects fl 0 || rejects fl 1 = false →
  let out := serve (post_api_cart_remove (RemoveBody.mk (Some e) (Some p))) fl d in
  let kept := List.filter (λ item, negb (refers_to p item)) items in
  (in_cart p items →
     out.1 = json 200 (Message "Product removed from cart successfully")
     ∧ out.2 = set_carts <[e := kept]> d
     ∧ ¬ in_cart p kept
     ∧ S (length kept) = length items
     ∧ ∀ item, item ∈ items → CartItem.productId item ≠ p → item ∈ kept)
  ∧ (¬ in_cart p items →
     out = (json 404 (Message "Product not found in cart"), d)).
Proof.
  intros He Hcart [Hq Hnd] [H0 H1]%orb_false_elim out kept. subst out.
  rewrite (remove_run e p fl d He), H0, Hcart. simpl. fold kept.
  assert (validate_cart (Cart.mk e kept) = true) as ->
    by (apply validate_cart_Forall; [done | by apply Forall_filter_quantities]).
  rewrite H1. simpl. split.
  - intros Hin. pose proof (filter_present_length p items Hnd Hin) as Hlen.
    fold kept in Hlen.
    rewrite bool_decide_eq_false_2 by lia.
    split_and!; [done|done|apply filter_gone|done|by apply filter_keeps].
  - intros Habs. pose proof (filter_absent p items Habs) as Hkept.
    fold kept in Hkept. rewrite Hkept. by rewrite bool_decide_eq_true_2.
Qed.

Lemma alice_cart_ok : cart_ok alice_cart.
Proof.
  split; [by repeat constructor|]. simpl.
  apply NoDup_cons. split; [|apply NoDup_singleton].
  by intros ?%list_elem_of_singleton.
Qed.

Lemma remove_line_witness :
  let out := serve (post_api_cart_remove
                      (RemoveBody.mk (Some "alice@shop.test") (Some 1%positive)))
               [] shop in
  let kept := List.filter (λ item, negb (refers_to 1 item)) alice_cart in
  (in_cart 1 alice_cart →
     out.1 = json 200 (Message "Product removed from cart successfully")
     ∧ out.2 = set_carts <["alice@shop.test" := kept]> shop
     ∧ ¬ in_cart 1 kept
     ∧ S (length kept) = length alice_cart
     ∧ ∀ item, item ∈ alice_cart → CartItem.productId item ≠ 1%positive →
               item ∈ kept)
  ∧ (¬ in_cart 1 alice_cart →
     out = (json 404 (Message "Product not found in cart"), shop)).
Proof.
  apply (remove_line "alice@shop.test" 1 alice_cart [] shop);
    [done | done | apply alice_cart_ok | done].
Defined.

(** X4. Updating the quantity of a line to a value of at least 1, on a cart
    that satisfies the cart invariant and a store that answers, sets the
    quantity to exactly that value (it does not add to the old one) and
    leaves every other line as it was. *)
Theorem update_sets_quantity e p q i items fl d :
  e ≠ "" →
  carts d !! e = Some items →
  cart_ok items →
  findIndex (refers_to p) items = Some i →
  (1 <=? q)%float = true →
  rejects fl 0 || rejects fl 1 = false →
  let out :=
    serve (post_api_cart_update (UpdateBody.mk (Some e) (Some p) (Some q))) fl d in
  let updated := alter (set_quantity q) i items in
  out.1 = json 200 (Message "Cart updated successfully")
  ∧ out.2 = set_carts <[e := updated]> d
  ∧ updated !! i = Some (CartItem.mk p q)
  ∧ ∀ j, j ≠ i → updated !! j = items !! j.
Proof.
  intros He Hcart [Hq Hnd] Hi Hone [H0 H1]%orb_false_elim out updated. subst out.
  destruct (findIndex_Some _ _ _ Hi) as (item & Hitem & Hp).
  rewrite (update_run e p q fl d He), H0, Hcart, Hi. simpl.
  rewrite (positive_not_le_zero _ (one_le_positive _ Hone)). fold updated.
  assert (validate_cart (Cart.mk e updated) = true) as ->.
  { apply validate_cart_Forall; [done|]. by apply Forall_alter. }
  rewrite H1. simpl. split_and!; try done.
  - unfold updated. rewrite list_lookup_alter_eq, Hitem. simpl.
    unfold set_quantity. by rewrite Hp.
  - intros j Hj. unfold updated. by rewrite list_lookup_alter_ne.
Qed.

Lemma update_sets_quantity_witness :
  let out :=
    serve (post_api_cart_update
             (UpdateBody.mk (Some "alice@shop.test") (Some 1%positive) (Some 7%float)))
      [] shop in
  let updated := alter (set_quantity 7) 0 alice_cart in
  out.1 = json 200 (Message "Cart updated successfully")
  ∧ out.2 = set_carts <["alice@shop.test" := updated]> shop
  ∧ updated !! 0 = Some (CartItem.mk 1 7)
  ∧ ∀ j, j ≠ 0 → updated !! j = alice_cart !! j.
Proof.
  apply (update_sets_quantity "alice@shop.test" 1 7 0 alice_cart [] shop);
    [done | done | apply alice_cart_ok | done | done | done].
Defined.

(** X5. An update to a quantity above 0 and below 1 passes the route's own
    test and is refused by the cart schema: the answer is the generic
    server error 500, not a validation error, and nothing is written,
    whichever store calls fail. *)
Theorem update_below_one_rejected e p q i items fl d :
  e ≠ "" →
  carts d !! e = Some items →
  findIndex (refers_to p) items = Some i →
  (q <=? 0)%float = false →
  (1 <=? q)%float = false →
  serve (post_api_cart_update (UpdateBody.mk (Some e) (Some p) (Some q))) fl d
  = (json 500 (Message "Failed to update cart"), d).
Proof.
  intros He Hcart Hi Hle Hone.
  destruct (findIndex_Some _ _ _ Hi) as (item & Hitem & Hp).
  assert (validate_cart (Cart.mk e (alter (set_quantity q) i items)) = false) as Hv.
  { unfold validate_cart. simpl. apply andb_false_intro2.
    apply not_true_is_false. intros H.
    apply Is_true_true, forallb_True in H.
    rewrite Forall_lookup in H.
    specialize (H i (set_quantity q item)).
    rewrite list_lookup_alter_eq, Hitem in H. specialize (H eq_refl).
    apply Is_true_true in H. unfold min_ok, set_quantity in H. simpl in H.
    congruence. }
  rewrite (update_run e p q fl d He), Hcart, Hi, Hle. simpl. rewrite Hv.
  simpl. by destruct (rejects fl 0).
Qed.

Lemma update_below_one_rejected_witness :
  serve (post_api_cart_update
           (UpdateBody.mk (Some "alice@shop.test") (Some 1%positive) (Some 0.5%float)))
    [] shop
  = (json 500 (Message "Failed to update cart"), shop).
Proof.
  by apply (update_below_one_rejected "alice@shop.test" 1 0.5 0 alice_cart [] shop).
Defined.

(** X6. Update and remove tell a missing cart from a missing line: when the
    store answers, a user without a cart gets 404 "Cart not found", a cart
    without the product 404 "Product not found in cart", and in both cases
    nothing is written. *)
Theorem cart_line_not_found e p q fl d :
  e ≠ "" →
  rejects fl 0 = false →
  let update :=
    serve (post_api_cart_update (UpdateBody.mk (Some e) (Some p) (Some q))) fl d in
  let remove :=
    serve (post_api_cart_remove (RemoveBody.mk (Some e) (Some p))) fl d in
  match carts d !! e with
  | None =>
      update = (json 404 (Message "Cart not found"), d)
      ∧ remove = (json 404 (Message "Cart not found"), d)
  | Some items =>
      ¬ in_cart p items →
      update = (json 404 (Message "Product not found in cart"), d)
      ∧ remove = (json 404 (Message "Product not found in cart"), d)
  end.
Proof.
  intros He Hfl update remove. subst update remove.
  rewrite (update_run e p q fl d He), (remove_run e p fl d He), Hfl.
  destruct (carts d !! e) as [items|]; [|done].
  intros Habs. simpl. rewrite (filter_absent p items Habs).
  apply findIndex_None in Habs. rewrite Habs.
  by rewrite bool_decide_eq_true_2.
Qed.

Lemma cart_line_not_found_witness :
  let update :=
    serve (post_api_cart_update
             (UpdateBody.mk (Some "root@shop.test") (Some 1%positive) (Some 2%float)))
      [] shop in
  let remove :=
    serve (post_api_cart_remove (RemoveBody.mk (Some "root@shop.test") (Some 1%positive)))
      [] shop in
  match carts shop !! "root@shop.test" with
  | None =>
      update = (json 404 (Message "Cart not found"), shop)
      ∧ remove = (json 404 (Message "Cart not found"), shop)
  | Some items =>
      ¬ in_cart 1 items →
      update = (json 404 (Message "Product not found in cart"), shop)
      ∧ remove = (json 404 (Message "Product not found in cart"), shop)
  end.
Proof. by apply (cart_line_not_found "root@shop.test" 1 2 [] shop). Defined.

(** X8. Clearing a cart, when the store answers: the answer reports the
    number of line items the cart held (0, under another message, when the
    user had no cart, which is then created) and the cart is left with no
    item; clearing again reports 0 and changes nothing more. *)
Theorem clear_reports_and_empties e fl fl' d :
  e ≠ "" →
  rejects fl 0 || rejects fl 1 = false →
  rejects fl' 0 || rejects fl' 1 = false →
  let out := serve (post_api_cart_clear (ClearBody.mk (Some e))) fl d in
  let again := serve (post_api_cart_clear (ClearBody.mk (Some e))) fl' out.2 in
  out.1 = json 200
            match carts d !! e with
            | None => Cleared "Cart not found, created empty cart" 0 None
            | Some items =>
                Cleared "Cart cleared successfully" (length items) (Some 0)
            end
  ∧ out.2 = set_carts <[e := []]> d
  ∧ carts out.2 !! e = Some []
  ∧ again = (json 200 (Cleared "Cart cleared successfully" 0 (Some 0)), out.2).
Proof.
  intros He Hfl Hfl' out again. subst again out.
  rewrite (clear_run e fl d He), Hfl. simpl.
  rewrite (clear_run e fl' _ He), Hfl'. simpl.
  rewrite lookup_insert_eq. split_and!; try done.
  unfold set_carts. simpl. by rewrite insert_insert_eq.
Qed.

Lemma clear_reports_and_empties_witness :
  let out :=
    serve (post_api_cart_clear (ClearBody.mk (Some "alice@shop.test"))) [] shop in
  let again :=
    serve (post_api_cart_clear (ClearBody.mk (Some "alice@shop.test"))) [] out.2 in
  out.1 = json 200
            match carts shop !! "alice@shop.test" with
            | None => Cleared "Cart not found, created empty cart" 0 None
            | Some items =>
                Cleared "Cart cleared successfully" (length items) (Some 0)
            end
  ∧ out.2 = set_carts <["alice@shop.test" := []]> shop
  ∧ carts out.2 !! "alice@shop.test" = Some []
  ∧ again = (json 200 (Cleared "Cart cleared successfully" 0 (Some 0)), out.2).
Proof. by apply (clear_reports_and_empties "alice@shop.test" [] [] shop). Defined.

Lemma set_carts_id d e items :
  carts d !! e = Some items → set_carts <[e := items]> d = d.
Proof.
  intros H. destruct d as [ps us cs os t]. unfold set_carts. simpl in *.
  by rewrite insert_id.
Qed.

(** X9. Add then remove is a round trip: on a cart that satisfies the cart
    invariant and does not hold the product, adding the product with a
    quantity of at least 1 and then removing it, with a store that answers,
    succeeds twice and leaves the database exactly as it was before. *)
Theorem add_then_remove e p q items fl fl' d :
  e ≠ "" →
  carts d !! e = Some items →
  cart_ok items →
  ¬ in_cart p items →
  (1 <=? q)%float = true →
  rejects fl 0 || rejects fl 1 = false →
  rejects fl' 0 || rejects fl' 1 = false →
  let added := serve (post_api_cart_add (AddBody.mk (Some e) (Some p) (Some q))) fl d in
  let removed :=
    serve (post_api_cart_remove (RemoveBody.mk (Some e) (Some p))) fl' added.2 in
  added.1 = json 200 (Message "Product added to cart successfully")
  ∧ carts added.2 !! e = Some (items ++ [CartItem.mk p q])
  ∧ removed.1 = json 200 (Message "Product removed from cart successfully")
  ∧ removed.2 = d.
Proof.
  intros He Hcart [Hq Hnd] Habs Hone [H0 H1]%orb_false_elim
    [H0' H1']%orb_false_elim added removed.
  subst removed added.
  pose proof (one_le_positive _ Hone) as Hpos.
  rewrite (add_run e p q fl d He (positive_truthy _ Hpos)
             (positive_not_le_zero _ Hpos)), H0, Hcart.
  simpl. rewrite (add_item_absent _ _ _ Habs).
  assert (validate_cart (Cart.mk e (items ++ [CartItem.mk p q])) = true) as ->.
  { apply validate_cart_Forall; [done|]. apply Forall_app. split; [done|].
    by repeat constructor. }
  rewrite H1. simpl.
  rewrite (remove_run e p fl' _ He), H0'. simpl. rewrite lookup_insert_eq.
  rewrite List.filter_app, (filter_absent p items Habs). simpl.
  assert (refers_to p (CartItem.mk p q) = true) as Href
    by (unfold refers_to, ObjectId_equals; by rewrite bool_decide_eq_true_2).
  rewrite !Href. simpl. rewrite !app_nil_r.
  rewrite bool_decide_eq_false_2 by (rewrite length_app; simpl; lia).
  rewrite (validate_cart_Forall e items He Hq), H1'. simpl.
  split_and!; try done.
  unfold set_carts. simpl. rewrite insert_insert_eq.
  by apply (set_carts_id d e items).
Qed.

Lemma add_then_remove_witness :
  let added :=
    serve (post_api_cart_add
             (AddBody.mk (Some "alice@shop.test") (Some 9%positive) (Some 2%float)))
      [] shop in
  let removed :=
    serve (post_api_cart_remove (RemoveBody.mk (Some "alice@shop.test") (Some 9%positive)))
      [] added.2 in
  added.1 = json 200 (Message "Product added to cart successfully")
  ∧ carts added.2 !! "alice@shop.test" = Some (alice_cart ++ [CartItem.mk 9 2])
  ∧ removed.1 = json 200 (Message "Product removed from cart successfully")
  ∧ removed.2 = shop.
Proof.
  apply (add_then_remove "alice@shop.test" 9 2 alice_cart [] [] shop);
    [done | done | apply alice_cart_ok | | done | done | done].
  unfold in_cart. simpl. rewrite !not_elem_of_cons.
  split_and!; try done. apply not_elem_of_nil.
Defined.

(** ** More on the checkout *)

(** X10. A checkout never touches the catalog or the accounts (no stock is
    decremented), never changes or removes an order that exists, and never
    changes the cart of another user, whatever the request and whichever
    store calls fail. *)
Theorem checkout_frame req fl d :
  let out := serve (post_api_orders req) fl d in
  products out.2 = products d
  ∧ users out.2 = users d
  ∧ now out.2 = now d
  ∧ (∀ _id o, orders d !! _id = Some o → orders out.2 !! _id = Some o)
  ∧ (∀ other, truthy_string (OrderBody.userEmail req) ≠ Some other →
              carts out.2 !! other = carts d !! other).
Proof.
  intros out. subst out.
  destruct (checkout_request req) as [(e & addr & pm & Hv) | [_ Hbad]].
  - rewrite (checkout_run _ _ _ _ _ _ Hv). destruct Hv as (He & _).
    destruct (rejects fl 0); [by split_and!|].
    destruct (carts d !! e) as [[|item items]|]; try by split_and!.
    destruct (resolve d _); [|by split_and!].
    simpl. destruct (negb _ || rejects fl 1)%bool; [by split_and!|].
    assert (∀ order _id o, orders d !! _id = Some o →
              <[fresh (dom (orders d)) := order]> (orders d) !! _id = Some o)
      as Hkeep.
    { intros order _id o Ho. rewrite lookup_insert_ne; [done|].
      intros <-. by rewrite fresh_order_id in Ho. }
    destruct (rejects fl 2); simpl; split_and!; try done.
    + by apply Hkeep.
    + by apply Hkeep.
    + intros other Hother. rewrite lookup_insert_ne; [done | congruence].
  - destruct (Hbad fl d) as [m ->]. by split_and!.
Qed.

(** X11. No double order: once a checkout has answered 201, a second
    checkout by the same user, with the store answering the cart query,
    answers 400 "Cart is empty" and changes nothing; in particular it
    stores no second order. *)
Theorem checkout_twice req fl fl' d :
  let first := serve (post_api_orders req) fl d in
  let second := serve (post_api_orders req) fl' first.2 in
  status first.1 = 201 →
  rejects fl' 0 = false →
  second = (json 400 (Message "Cart is empty"), first.2).
Proof.
  intros first second. subst second first.
  destruct (checkout_request req) as [(e & addr & pm & Hv) | [_ Hbad]].
  - rewrite (checkout_run _ fl' _ _ _ _ Hv).
    rewrite (checkout_run _ fl d _ _ _ Hv).
    destruct (rejects fl 0); [done|].
    destruct (carts d !! e) as [[|item items]|]; try done.
    destruct (resolve d _); [|done].
    simpl. destruct (negb _ || rejects fl 1)%bool; [done|].
    destruct (rejects fl 2); [done|]. simpl.
    intros _ ->. by rewrite lookup_insert_eq.
  - destruct (Hbad fl d) as [m ->]. done.
Qed.

Lemma checkout_twice_witness :
  let first := serve (post_api_orders (checkout_by "card")) [] shop in
  let second := serve (post_api_orders (checkout_by "card")) [] first.2 in
  second = (json 400 (Message "Cart is empty"), first.2).
Proof.
  apply (checkout_twice (checkout_by "card") [] [] shop); by vm_compute.
Defined.

(** ** Reading carts and orders *)

Ltac run_json :=
  unfold serve_json, try_catch_json, Order_findOne, Product_findById,
    Product_findByIdAndDelete, admin_only, distinct_sorted, server_error_with;
  run.

Lemma get_cart_run userEmail fl d :
  serve_json (get_api_cart userEmail) fl d
  = match truthy_string userEmail with
    | None => (inl (json 400 (Message "User email is required")), d)
    | Some e =>
        if rejects fl 0 then
          (inl (json 500 (Message "Failed to fetch cart")), d)
        else
          (inr match carts d !! e with
               | None => CartView.mk None []
               | Some items => CartView.mk (Some e) (populate d items)
               end, d)
    end.
Proof.
  unfold get_api_cart, rejects. destruct (truthy_string userEmail) as [e|];
    run_json; [|done].
  destruct fl as [|[] fl]; simpl; try done.
  all: by destruct (carts d !! e).
Qed.

Lemma get_order_run id userEmail fl d :
  serve_json (get_api_orders_id id userEmail) fl d
  = match id with
    | None => (inl (json 400 (Message "Invalid order ID format")), d)
    | Some id =>
        match truthy_string userEmail with
        | None => (inl (json 400 (Message "User email is required")), d)
        | Some e =>
            if rejects fl 0 then
              (inl (json 500 (Message "Failed to fetch order")), d)
            else match orders d !! id with
            | Some o =>
                if bool_decide (Order.userEmail o = e) then
                  (inr ((id, o), summaries d (Order.items o)), d)
                else (inl (json 404 (Message "Order not found")), d)
            | None => (inl (json 404 (Message "Order not found")), d)
            end
        end
    end.
Proof.
  unfold get_api_orders_id, rejects. destruct id as [id|]; [|done].
  destruct (truthy_string userEmail) as [e|]; run_json; [|done].
  destruct fl as [|[] fl]; simpl; try done.
  all: destruct (orders d !! id) as [o|]; simpl; try done.
  all: by destruct (bool_decide (Order.userEmail o = e)).
Qed.

(** X12. GET /api/cart never writes, and when the store answers it sends,
    for a user without a cart, the empty cart [{ items: [] }] as a success
    rather than an error, and for a user with a cart one populated line per
    stored line, in order, with the stored quantity and the product
    document the reference resolves to ([null] when it dangles). *)
Theorem get_cart_reads userEmail fl d :
  let out := serve_json (get_api_cart userEmail) fl d in
  out.2 = d
  ∧ ∀ e, truthy_string userEmail = Some e → rejects fl 0 = false →
      match carts d !! e with
      | None => out.1 = inr (CartView.mk None [])
      | Some items =>
          ∃ lines, out.1 = inr (CartView.mk (Some e) lines)
            ∧ length lines = length items
            ∧ ∀ i item, items !! i = Some item →
                lines !! i
                = Some (PopulatedItem.mk
                          (pair (CartItem.productId item)
                             <$> products d !! CartItem.productId item)
                          (CartItem.quantity item))
      end.
Proof.
  intros out. subst out. rewrite get_cart_run.
  destruct (truthy_string userEmail) as [e'|]; [|done].
  split; [by destruct (rejects fl 0)|].
  intros e [= <-] ->. destruct (carts d !! e') as [items|]; [|done].
  exists (populate d items). unfold populate. split_and!; [done | |].
  - by rewrite length_fmap.
  - intros i item Hi. by rewrite list_lookup_fmap, Hi.
Qed.

(** X13. What a successful checkout stored can be read back: after a
    checkout answered 201 with an order, and with the store answering, GET
    /api/cart sends the user's cart with no item and GET /api/orders/:id,
    asked by the same user for the id of the answer, sends that very
    order. *)
Theorem checkout_then_read req m _id o fl fl1 fl2 d :
  let placed := serve (post_api_orders req) fl d in
  placed.1 = json 201 (Placed m (_id, o)) →
  rejects fl1 0 = false →
  rejects fl2 0 = false →
  ∃ e, truthy_string (OrderBody.userEmail req) = Some e
    ∧ serve_json (get_api_cart (Some e)) fl1 placed.2
      = (inr (CartView.mk (Some e) []), placed.2)
    ∧ serve_json (get_api_orders_id (Some _id) (Some e)) fl2 placed.2
      = (inr ((_id, o), summaries placed.2 (Order.items o)), placed.2).
Proof.
  intros placed. subst placed.
  destruct (checkout_request req) as [(e & addr & pm & Hv) | [_ Hbad]].
  - rewrite (checkout_run _ fl d _ _ _ Hv).
    destruct Hv as (Hue & _). pose proof Hue as [_ He]%truthy_string_inv.
    destruct (rejects fl 0); [done|].
    destruct (carts d !! e) as [[|item items]|]; try done.
    destruct (resolve d _); [|done].
    simpl. destruct (negb _ || rejects fl 1)%bool; [done|].
    destruct (rejects fl 2); [done|]. simpl.
    intros [= <- <- <-] H1 H2. exists e. split; [done|].
    rewrite get_cart_run, get_order_run, (truthy_string_Some e He), H1, H2.
    simpl. rewrite !lookup_insert_eq. simpl.
    by rewrite bool_decide_eq_true_2.
  - destruct (Hbad fl d) as [m' ->]. done.
Qed.

Lemma checkout_then_read_witness :
  let placed := serve (post_api_orders (checkout_by "upi")) [] shop in
  ∃ e, truthy_string (OrderBody.userEmail (checkout_by "upi")) = Some e
    ∧ serve_json (get_api_cart (Some e)) [] placed.2
      = (inr (CartView.mk (Some e) []), placed.2)
    ∧ serve_json (get_api_orders_id (Some 1%positive) (Some e)) [] placed.2
      = (inr ((1%positive, alice_order),
              summaries placed.2 (Order.items alice_order)), placed.2).
Proof.
  apply (checkout_then_read (checkout_by "upi") "Order placed successfully"
           1 alice_order [] [] [] shop); by vm_compute.
Defined.

(** X14. Orders are read by their owner only: GET /api/orders/:id never
    writes; an order it sends is stored under the requested id and belongs
    to the requesting email; and an order of another user is answered like
    an order that does not exist, 404 "Order not found". *)
Theorem get_order_owner_only id userEmail fl d :
  let out := serve_json (get_api_orders_id id userEmail) fl d in
  out.2 = d
  ∧ (∀ view, out.1 = inr view →
       ∃ e, id = Some view.1.1 ∧ truthy_string userEmail = Some e
            ∧ orders d !! view.1.1 = Some view.1.2
            ∧ Order.userEmail view.1.2 = e)
  ∧ (∀ _id e o, id = Some _id → truthy_string userEmail = Some e →
       orders d !! _id = Some o → Order.userEmail o ≠ e →
       rejects fl 0 = false →
       out.1 = inl (json 404 (Message "Order not found"))
       ∧ out.1 = (serve_json (get_api_orders_id id userEmail) fl
                    (set_orders (delete _id) d)).1).
Proof.
  intros out. subst out. rewrite !get_order_run.
  destruct id as [_id|]; [|by split_and!].
  destruct (truthy_string userEmail) as [e|] eqn:Hue; [|by split_and!].
  split_and!.
  - destruct (rejects fl 0); [done|].
    destruct (orders d !! _id) as [o|]; [|done].
    by destruct (bool_decide _).
  - intros view. destruct (rejects fl 0); [done|].
    destruct (orders d !! _id) as [o|] eqn:Ho; [|done].
    case_bool_decide as Hown; [|done].
    intros [= <-]. simpl. by exists e.
  - intros ? ? o [= <-] [= <-] Ho Hown Hfl. rewrite Hfl, Ho.
    rewrite bool_decide_eq_false_2 by done. simpl.
    split; [done|]. rewrite get_order_run, Hue, Hfl. simpl.
    by rewrite lookup_delete_eq.
Qed.

(** ** Deleting a product *)

Lemma admin_only_run {A} email (operation : Route A) handler fl d :
  serve_json (try_catch_json (admin_only email operation) handler) fl d
  = if rejects fl 0 then (inl (handler StoreFailure), d)
    else if not_admin (account d email) then
      (inl (json 403 (Message "Admin access required")), d)
    else serve_json (try_catch_json operation handler) (tail fl) d.
Proof.
  unfold account, rejects. run_json.
  destruct fl as [|[] fl]; simpl; try done.
  all: by destruct (not_admin _).
Qed.

Lemma delete_product_run id email fl d :
  serve_json (delete_api_admin_products_id id email) fl d
  = let failed := inl (json 500 (Message "Failed to delete product")) in
    match id with
    | None => (inl (json 400 (Message "Invalid product ID format")), d)
    | Some id =>
        if rejects fl 0 then (failed, d)
        else if not_admin (account d email) then
          (inl (json 403 (Message "Admin access required")), d)
        else if rejects fl 1 then (failed, d)
        else match products d !! id with
        | None => (inl (json 404 (Message "Product not found")), d)
        | Some product =>
            (inr (Deleted.mk "Product deleted successfully" id
                    (Product.name product)),
             set_products (delete id) d)
        end
    end.
Proof.
  unfold delete_api_admin_products_id. destruct id as [id|]; [|done].
  rewrite admin_only_run. unfold server_error.
  destruct (rejects fl 0) eqn:H0; [done|].
  destruct (not_admin _); [done|].
  unfold rejects in *. run_json.
  destruct fl as [|b [|[] fl]]; simpl; try done.
  all: by destruct (products d !! id).
Qed.

Lemma get_product_run id fl d :
  serve_json (get_api_products_id id) fl d
  = match id with
    | None => (inl (json 400 (Message "Invalid product ID format")), d)
    | Some id =>
        if rejects fl 0 then
          (inl (json 500 (Message "Failed to fetch product")), d)
        else match products d !! id with
        | None => (inl (json 404 (Message "Product not found")), d)
        | Some product => (inr (id, product), d)
        end
    end.
Proof.
  unfold get_api_products_id, rejects. destruct id as [id|]; [|done]. run_json.
  destruct fl as [|[] fl]; simpl; try done.
  all: by destruct (products d !! id).
Qed.

(** X15. A product deletion by an admin, with the store answering: an
    existing product is removed and its id and name are reported; no other
    product, and no cart, order or account, is touched (nothing cascades);
    afterwards GET /api/products/:id and a second deletion both answer
    404. A product that does not exist is answered 404 and nothing is
    written. *)
Theorem delete_product_effect id email fl fl1 fl2 d :
  not_admin (account d email) = false →
  rejects fl 0 || rejects fl 1 = false →
  rejects fl1 0 = false →
  rejects fl2 0 || rejects fl2 1 = false →
  let out := serve_json (delete_api_admin_products_id (Some id) email) fl d in
  match products d !! id with
  | None => out = (inl (json 404 (Message "Product not found")), d)
  | Some product =>
      out.1 = inr (Deleted.mk "Product deleted successfully" id
                     (Product.name product))
      ∧ products out.2 !! id = None
      ∧ (∀ other, other ≠ id → products out.2 !! other = products d !! other)
      ∧ carts out.2 = carts d ∧ orders out.2 = orders d ∧ users out.2 = users d
      ∧ serve_json (get_api_products_id (Some id)) fl1 out.2
        = (inl (json 404 (Message "Product not found")), out.2)
      ∧ serve_json (delete_api_admin_products_id (Some id) email) fl2 out.2
        = (inl (json 404 (Message "Product not found")), out.2)
  end.
Proof.
  intros Hadmin [H0 H1]%orb_false_elim H0' [H0'' H1'']%orb_false_elim out.
  subst out. rewrite delete_product_run. simpl.
  rewrite H0, Hadmin, H1.
  destruct (products d !! id) as [product|] eqn:Hp; [|done]. simpl.
  split_and!; try done.
  - apply lookup_delete_eq.
  - intros other Hne. by apply lookup_delete_ne.
  - rewrite get_product_run, H0'. simpl. by rewrite lookup_delete_eq.
  - rewrite delete_product_run. simpl.
    change (account (set_products (delete id) d) email) with (account d email).
    rewrite H0'', Hadmin, H1''. simpl. by rewrite lookup_delete_eq.
Qed.

Lemma delete_product_effect_witness :
  let out :=
    serve_json (delete_api_admin_products_id (Some 2%positive) (Some "root@shop.test"))
      [] shop in
  match products shop !! 2%positive with
  | None => out = (inl (json 404 (Message "Product not found")), shop)
  | Some product =>
      out.1 = inr (Deleted.mk "Product deleted successfully" 2
                     (Product.name product))
      ∧ products out.2 !! 2%positive = None
      ∧ (∀ other, other ≠ 2%positive →
                  products out.2 !! other = products shop !! other)
      ∧ carts out.2 = carts shop ∧ orders out.2 = orders shop
      ∧ users out.2 = users shop
      ∧ serve_json (get_api_products_id (Some 2%positive)) [] out.2
        = (inl (json 404 (Message "Product not found")), out.2)
      ∧ serve_json (delete_api_admin_products_id (Some 2%positive)
                      (Some "root@shop.test")) [] out.2
        = (inl (json 404 (Message "Product not found")), out.2)
  end.
Proof.
  apply (delete_product_effect 2 (Some "root@shop.test") [] [] [] shop);
    by vm_compute.
Defined.



(** X17. A deleted product blocks the carts that hold it: after a
    successful deletion, every syntactically valid checkout by a user whose
    cart has a line for that product answers 500 "Failed to create order"
    and changes nothing, whichever store calls fail, until the line is
    removed. *)
Theorem deleted_product_blocks_checkout id email deleted fl d req e addr pm items fl' :
  let out := serve_json (delete_api_admin_products_id (Some id) email) fl d in
  out.1 = inr deleted →
  valid_checkout req e addr pm →
  carts d !! e = Some items →
  in_cart id items →
  serve (post_api_orders req) fl' out.2
  = (json 500 (Message "Failed to create order"), out.2).
Proof.
  intros out. subst out. rewrite delete_product_run. simpl.
  destruct (rejects fl 0); [done|].
  destruct (not_admin _); [done|].
  destruct (rejects fl 1); [done|].
  destruct (products d !! id) as [product|]; [|done]. simpl.
  intros _ Hv Hcart Hin.
  rewrite (checkout_run _ _ _ _ _ _ Hv). simpl. rewrite Hcart.
  rewrite (resolve_dangling (set_products (delete id) d) items).
  - destruct items; [by apply not_elem_of_nil in Hin|].
    by destruct (rejects fl' 0).
  - unfold in_cart in Hin. apply list_elem_of_fmap in Hin as (item & -> & Hin).
    exists item. split; [done|]. simpl. apply lookup_delete_eq.
Qed.

Lemma deleted_product_blocks_checkout_witness :
  let out :=
    serve_json (delete_api_admin_products_id (Some 2%positive) (Some "root@shop.test"))
      [] shop in
  serve (post_api_orders (checkout_by "upi")) [] out.2
  = (json 500 (Message "Failed to create order"), out.2).
Proof.
  apply (deleted_product_blocks_checkout 2 (Some "root@shop.test")
           (Deleted.mk "Product deleted successfully" 2 "Mug") [] shop
           (checkout_by "upi") "alice@shop.test" home_address "upi" alice_cart []).
  - by vm_compute.
  - by vm_compute.
  - by vm_compute.
  - unfold in_cart. simpl. rewrite !elem_of_cons. auto.
Defined.

(** X18. An order outlives its products: after a successful deletion of a
    product, GET /api/orders/:id still sends each stored order of the
    requesting user unchanged, snapshot names, prices and total included;
    only the populated reference of the deleted product has become
    [null]. *)
Theorem order_survives_product_deletion id email deleted fl d _id o fl' :
  let out := serve_json (delete_api_admin_products_id (Some id) email) fl d in
  out.1 = inr deleted →
  orders d !! _id = Some o →
  rejects fl' 0 = false →
  Order.userEmail o ≠ "" →
  ∃ populated,
    serve_json (get_api_orders_id (Some _id) (Some (Order.userEmail o))) fl' out.2
    = (inr ((_id, o), populated), out.2)
    ∧ ∀ i item, Order.items o !! i = Some item →
        populated !! i
        = Some (if bool_decide (OrderItem.productId item = id) then None
                else (λ p, ProductSummary.mk (OrderItem.productId item)
                             (Product.name p) (Product.category p)
                             (Product.brand p))
                     <$> products d !! OrderItem.productId item).
Proof.
  intros out. subst out. rewrite delete_product_run. simpl.
  destruct (rejects fl 0); [done|].
  destruct (not_admin _); [done|].
  destruct (rejects fl 1); [done|].
  destruct (products d !! id) as [product|]; [|done]. simpl.
  intros _ Ho Hfl He.
  exists (summaries (set_products (delete id) d) (Order.items o)). split.
  - rewrite get_order_run, (truthy_string_Some _ He), Hfl. simpl.
    by rewrite Ho, bool_decide_eq_true_2.
  - intros i item Hi. unfold summaries. rewrite list_lookup_fmap, Hi. simpl.
    case_bool_decide as Hid.
    + by rewrite Hid, lookup_delete_eq.
    + by rewrite lookup_delete_ne.
Qed.

Lemma order_survives_product_deletion_witness :
  let out :=
    serve_json (delete_api_admin_products_id (Some 2%positive) (Some "root@shop.test"))
      [] shop_with_order in
  ∃ populated,
    serve_json (get_api_orders_id (Some 1%positive)
                  (Some (Order.userEmail alice_order))) [] out.2
    = (inr ((1%positive, alice_order), populated), out.2)
    ∧ ∀ i item, Order.items alice_order !! i = Some item →
        populated !! i
        = Some (if bool_decide (OrderItem.productId item = 2%positive) then None
                else (λ p, ProductSummary.mk (OrderItem.productId item)
                             (Product.name p) (Product.category p)
                             (Product.brand p))
                     <$> products shop_with_order !! OrderItem.productId item).
Proof.
  apply (order_survives_product_deletion 2 (Some "root@shop.test")
           (Deleted.mk "Product deleted successfully" 2 "Mug") []
           shop_with_order 1 alice_order []); by vm_compute.
Defined.

(** ** More on the order status update *)

(** X19. An admin's status update is validated before anything is written:
    a status that is missing or not one of the five values is answered 400
    "Invalid order status", whether or not the order exists, and a valid
    status for an order that does not exist 404 "Order not found"; in both
    cases the database is unchanged. *)
Theorem status_update_refusals id email status fl d :
  not_admin (account d email) = false →
  rejects fl 0 || rejects fl 1 = false →
  let out := serve (put_api_admin_orders_id (Some id) (StatusBody.mk email status))
               fl d in
  match status with
  | Some s =>
      if bool_decide (s ∈ validStatuses) then
        orders d !! id = None →
        out = (json 404 (Message "Order not found"), d)
      else out = (json 400 (Message "Invalid order status"), d)
  | None => out = (json 400 (Message "Invalid order status"), d)
  end.
Proof.
  intros Hadmin [H0 H1]%orb_false_elim out. subst out.
  rewrite put_order_status_run. simpl. rewrite H0, Hadmin.
  destruct status as [s|]; [|done]. unfold includes.
  case_bool_decide; simpl; [|done]. rewrite H1. by intros ->.
Qed.

Lemma status_update_refusals_witness :
  let out :=
    serve (put_api_admin_orders_id (Some 1%positive)
             (StatusBody.mk (Some "root@shop.test") (Some "lost")))
      [] shop_with_order in
  if bool_decide ("lost" ∈ validStatuses) then
    orders shop_with_order !! 1%positive = None →
    out = (json 404 (Message "Order not found"), shop_with_order)
  else out = (json 400 (Message "Invalid order status"), shop_with_order).
Proof.
  apply (status_update_refusals 1 (Some "root@shop.test") (Some "lost") []
           shop_with_order); by vm_compute.
Defined.

Lemma status_update_ok id email s o fl d :
  not_admin (account d email) = false →
  orders d !! id = Some o →
  s ∈ validStatuses →
  rejects fl 0 || rejects fl 1 = false →
  serve (put_api_admin_orders_id (Some id) (StatusBody.mk email (Some s))) fl d
  = (json 200 (Updated "Order status updated successfully" (id, set_status s o)
                 (summaries d (Order.items o))),
     set_orders <[id := set_status s o]> d).
Proof.
  intros Hadmin Ho Hs [H0 H1]%orb_false_elim.
  rewrite put_order_status_run. simpl. unfold includes.
  rewrite bool_decide_eq_true_2 by done. simpl.
  by rewrite H0, Hadmin, H1, Ho.
Qed.

(** X20. No transition graph is enforced: for an admin and a store that
    answers, any of the five statuses is accepted whatever the current
    status of the order (a delivered order can go back to pending), and of
    two updates in a row the last one wins: the database is the same as if
    only the second had been made. *)
Theorem status_update_unconstrained id email s1 s2 o fl fl' d :
  not_admin (account d email) = false →
  orders d !! id = Some o →
  s1 ∈ validStatuses → s2 ∈ validStatuses →
  rejects fl 0 || rejects fl 1 = false →
  rejects fl' 0 || rejects fl' 1 = false →
  let first := serve (put_api_admin_orders_id (Some id)
                        (StatusBody.mk email (Some s1))) fl d in
  let second := serve (put_api_admin_orders_id (Some id)
                         (StatusBody.mk email (Some s2))) fl' first.2 in
  status first.1 = 200
  ∧ orders first.2 !! id = Some (set_status s1 o)
  ∧ status second.1 = 200
  ∧ second.2 = set_orders <[id := set_status s2 o]> d
  ∧ second.2 = (serve (put_api_admin_orders_id (Some id)
                         (StatusBody.mk email (Some s2))) fl' d).2.
Proof.
  intros Hadmin Ho Hs1 Hs2 Hfl Hfl' first second. subst second first.
  rewrite (status_update_ok id email s1 o fl d) by done. simpl.
  rewrite (status_update_ok id email s2 (set_status s1 o) fl') by
    (try done; simpl; apply lookup_insert_eq).
  rewrite (status_update_ok id email s2 o fl' d) by done. simpl.
  rewrite lookup_insert_eq. split_and!; try done.
  all: unfold set_orders; simpl; by rewrite insert_insert_eq.
Qed.

Lemma status_update_unconstrained_witness :
  let first := serve (put_api_admin_orders_id (Some 1%positive)
                        (StatusBody.mk (Some "root@shop.test") (Some "delivered")))
                 [] shop_with_order in
  let second := serve (put_api_admin_orders_id (Some 1%positive)
                         (StatusBody.mk (Some "root@shop.test") (Some "pending")))
                  [] first.2 in
  status first.1 = 200
  ∧ orders first.2 !! 1%positive = Some (set_status "delivered" alice_order)
  ∧ status second.1 = 200
  ∧ second.2 = set_orders <[1%positive := set_status "pending" alice_order]>
                 shop_with_order
  ∧ second.2 = (serve (put_api_admin_orders_id (Some 1%positive)
                         (StatusBody.mk (Some "root@shop.test") (Some "pending")))
                  [] shop_with_order).2.
Proof.
  apply (status_update_unconstrained 1 (Some "root@shop.test") "delivered"
           "pending" alice_order [] [] shop_with_order); try by vm_compute.
  all: unfold validStatuses; rewrite !elem_of_cons; auto 10.
Defined.

(** ** Login *)







(** ** Catalog facets *)





(** The shop sells kitchen things of one brand. *)
Example facets_example :
  serve_json get_api_categories [] shop = (inr ["Kitchen"], shop)
  ∧ serve_json get_api_brands [] shop = (inr ["Acme"], shop).
Proof. by vm_compute. Qed.

(** ** Frontend configuration *)

(** X25. [getApiUrl] always gives a path that starts with "/", gives back
    unchanged an endpoint that already does, and prepends one "/" to any
    other, so applying it twice is the same as applying it once. *)
Theorem getApiUrl_rooted endpoint :
  (∃ rest, getApiUrl endpoint = String slash rest)
  ∧ (getApiUrl endpoint = endpoint ∨ getApiUrl endpoint = String slash endpoint)
  ∧ ((∃ rest, endpoint = String slash rest) → getApiUrl endpoint = endpoint)
  ∧ getApiUrl (getApiUrl endpoint) = getApiUrl endpoint.
Proof.
  unfold getApiUrl. destruct endpoint as [|c rest].
  - split_and!; eauto. by intros [? ?].
  - case_bool_decide as Hc.
    + subst c. rewrite bool_decide_eq_true_2 by done. split_and!; eauto.
    + rewrite bool_decide_eq_true_2 by done. split_and!; eauto.
      intros [? [= -> _]]. done.
Qed.

(** ** More runs on the shop *)

(** Alice adds to her cart while Bob's cart stays as it is. *)
Example carts_are_separate :
  let out :=
    serve (post_api_cart_add
             (AddBody.mk (Some "alice@shop.test") (Some 2%positive) (Some 5%float)))
      [] busy_shop in
  carts out.2 !! "alice@shop.test" = Some [CartItem.mk 1 3; CartItem.mk 2 6]
  ∧ carts out.2 !! "bob@shop.test" = Some [CartItem.mk 2 2].
Proof. by vm_compute. Qed.

(** Alice reads her order; Bob, asking for the same id, is told that there
    is no such order; a user without a cart reads an empty one. *)
Example reads_example :
  (serve_json (get_api_orders_id (Some 1%positive) (Some "alice@shop.test")) []
     shop_with_order).1
  = inr ((1%positive, alice_order),
         [Some (ProductSummary.mk 1 "Kettle" "Kitchen" "Acme");
          Some (ProductSummary.mk 2 "Mug" "Kitchen" "Acme")])
  ∧ (serve_json (get_api_orders_id (Some 1%positive) (Some "bob@shop.test")) []
       shop_with_order).1
    = inl (json 404 (Message "Order not found"))
  ∧ (serve_json (get_api_cart (Some "root@shop.test")) [] shop).1
    = inr (CartView.mk None []).
Proof. by vm_compute. Qed.

(** A login with the right password, a wrong one, and an unknown email. *)
Example login_example :
  (serve_json (post_api_login shop_compare
                 (LoginBody.mk (Some "ALICE@shop.test") (Some "secret1"))) [] shop).1
  = inr (LoggedIn.mk "Login successful" "Alice" "alice@shop.test" "user")
  ∧ (serve_json (post_api_login shop_compare
                   (LoginBody.mk (Some "alice@shop.test") (Some "secret2"))) [] shop).1
    = inl (json 401 (Message "Invalid email or password"))
  ∧ (serve_json (post_api_login shop_compare
                   (LoginBody.mk (Some "ghost@shop.test") (Some "secret1"))) [] shop).1
    = inl (json 401 (Message "Invalid email or password")).
Proof. by vm_compute. Qed.
